(** * BOM extraction and multi-variant reconciliation (YOC-YNCA/test.py)

    A shallow embedding of the PDF-table-to-record pipeline of
    [src/YOC-YNCA/test.py]: the deletion detector, the table locator, the
    row normaliser, the metadata extractor and the first phase of the
    reconciler ([write_combined_excel], up to the merged-part dictionary).

    Python [str] values are lists of Unicode code points; Python [int] is
    [Z]; Python [float] is IEEE binary64 as specified by [SpecFloat];
    exceptions are an explicit error result.  What CPython takes from its
    Unicode character database for characters outside ASCII (case mapping,
    alphabetic class, decimal digits, NFKC) is a record the definitions
    take as an argument; on ASCII everything is computed here. *)

From Stdlib Require Import ZArith NArith QArith List String Ascii Bool Lia.
From Stdlib Require Import Floats.SpecFloat DecimalNat.
From stdpp Require Import base option list gmap.

Local Open Scope bool_scope.

(** ** Exceptions *)

Inductive exn := IndexError | ValueError | OverflowError.

Inductive result (A : Type) :=
| Ok (a : A)
| Raise (e : exn).
Arguments Ok {A} a.
Arguments Raise {A} e.

#[global] Instance result_ret : MRet result := fun _ a => Ok a.
#[global] Instance result_bind : MBind result := fun _ _ f m =>
  match m with
  | Ok a => f a
  | Raise e => Raise e
  end.

(** [xs[i]]: an index past the end raises [IndexError]. *)
Definition py_index {A} (xs : list A) (i : nat) : result A :=
  match xs !! i with
  | Some x => Ok x
  | None => Raise IndexError
  end.

(** ** Strings *)

Abbreviation pystr := (list N).

(** String literals of this file are UTF-8; [u8] decodes one into its code
    points. *)
Record utf8_state := { u8_need : nat; u8_acc : N; u8_out : list N }.

Definition utf8_step (st : utf8_state) (b : N) : utf8_state :=
  match u8_need st with
  | O =>
      if (b <? 128)%N then {| u8_need := 0; u8_acc := 0; u8_out := b :: u8_out st |}
      else if (b <? 224)%N then {| u8_need := 1; u8_acc := N.land b 31; u8_out := u8_out st |}
      else if (b <? 240)%N then {| u8_need := 2; u8_acc := N.land b 15; u8_out := u8_out st |}
      else {| u8_need := 3; u8_acc := N.land b 7; u8_out := u8_out st |}
  | S n =>
      let acc := (u8_acc st * 64 + N.land b 63)%N in
      match n with
      | O => {| u8_need := 0; u8_acc := 0; u8_out := acc :: u8_out st |}
      | _ => {| u8_need := n; u8_acc := acc; u8_out := u8_out st |}
      end
  end.

Definition u8 (s : string) : pystr :=
  rev (u8_out (fold_left utf8_step
                 (List.map N_of_ascii (list_ascii_of_string s))
                 {| u8_need := 0; u8_acc := 0; u8_out := [] |})).

Definition is_ascii (c : N) : bool := (c <? 128)%N.

(** [Py_UNICODE_ISSPACE]: what [str.strip], [str.split], [str.isspace] and the
    regex class [\s] treat as whitespace. *)
Definition is_space (c : N) : bool :=
  ((9 <=? c) && (c <=? 13) || (28 <=? c) && (c <=? 32) || (c =? 133) || (c =? 160)
   || (c =? 5760) || (8192 <=? c) && (c <=? 8202) || (c =? 8232) || (c =? 8233)
   || (c =? 8239) || (c =? 8287) || (c =? 12288))%N.

(** [Py_UNICODE_ISLINEBREAK]: where [str.splitlines] cuts. *)
Definition is_linebreak (c : N) : bool :=
  ((10 <=? c) && (c <=? 13) || (28 <=? c) && (c <=? 30) || (c =? 133)
   || (c =? 8232) || (c =? 8233))%N.

Fixpoint drop_while {A} (p : A -> bool) (l : list A) : list A :=
  match l with
  | [] => []
  | x :: l' => if p x then drop_while p l' else l
  end.

Fixpoint take_while {A} (p : A -> bool) (l : list A) : list A :=
  match l with
  | [] => []
  | x :: l' => if p x then x :: take_while p l' else []
  end.

Definition strip_chars (p : N -> bool) (s : pystr) : pystr :=
  rev (drop_while p (rev (drop_while p s))).

(** [s.strip()] *)
Definition py_strip (s : pystr) : pystr := strip_chars is_space s.

(** [s.replace(old, new)] for one-character [old] and [new]. *)
Definition py_replace_char (old new : N) (s : pystr) : pystr :=
  List.map (fun c => if (c =? old)%N then new else c) s.

(** [s.split()]: the maximal runs of non-whitespace.  [cur] is the word
    being read, reversed. *)
Fixpoint split_ws (cur : pystr) (s : pystr) : list pystr :=
  match s with
  | [] => match cur with [] => [] | _ => [rev cur] end
  | c :: s' =>
      if is_space c
      then match cur with [] => split_ws [] s' | _ => rev cur :: split_ws [] s' end
      else split_ws (c :: cur) s'
  end.

Definition py_split (s : pystr) : list pystr := split_ws [] s.

(** [s.splitlines()]: cut after every line break, [\r\n] counting as one;
    no empty last line. *)
Fixpoint split_lines (cur : pystr) (s : pystr) : list pystr :=
  match s with
  | [] => match cur with [] => [] | _ => [rev cur] end
  | c :: s' =>
      if is_linebreak c
      then rev cur ::
           match c, s' with
           | 13%N, 10%N :: s'' => split_lines [] s''
           | _, _ => split_lines [] s'
           end
      else split_lines (c :: cur) s'
  end.

Definition py_splitlines (s : pystr) : list pystr := split_lines [] s.

(** [sep.join(parts)] *)
Fixpoint py_join (sep : pystr) (parts : list pystr) : pystr :=
  match parts with
  | [] => []
  | [p] => p
  | p :: ps => p ++ sep ++ py_join sep ps
  end.

(** [s.startswith(p)] *)
Fixpoint startswith (p s : pystr) : bool :=
  match p, s with
  | [], _ => true
  | _ :: _, [] => false
  | a :: p', b :: s' => (a =? b)%N && startswith p' s'
  end.

(** [p in s] *)
Fixpoint contains (p s : pystr) : bool :=
  startswith p s || match s with [] => false | _ :: s' => contains p s' end.

(** ** The Unicode character database *)

Record UCD := {
  (** [str.lower] and [str.upper] of a string that has a non-ASCII character *)
  ucd_lower : pystr -> pystr;
  ucd_upper : pystr -> pystr;
  (** [str.isalpha] of a non-ASCII character *)
  ucd_isalpha : N -> bool;
  (** the digit value of a non-ASCII character of category Nd *)
  ucd_decimal : N -> option N;
  (** [unicodedata.normalize("NFKC", s)] *)
  ucd_nfkc : pystr -> pystr;
  (** whether a non-ASCII character matches a lower-case ASCII letter of a
      pattern compiled with [re.IGNORECASE] *)
  ucd_ignorecase_eq : N -> N -> bool
}.

Definition ascii_is_upper (c : N) : bool := ((65 <=? c) && (c <=? 90))%N.
Definition ascii_is_lower (c : N) : bool := ((97 <=? c) && (c <=? 122))%N.
Definition ascii_is_alpha (c : N) : bool := ascii_is_upper c || ascii_is_lower c.
Definition ascii_is_digit (c : N) : bool := ((48 <=? c) && (c <=? 57))%N.
Definition ascii_lower (c : N) : N := if ascii_is_upper c then (c + 32)%N else c.
Definition ascii_upper (c : N) : N := if ascii_is_lower c then (c - 32)%N else c.

Section Unicode.
Context (ucd : UCD).

(** [s.lower()] *)
Definition py_lower (s : pystr) : pystr :=
  if forallb is_ascii s then List.map ascii_lower s else ucd_lower ucd s.

(** [s.upper()] *)
Definition py_upper (s : pystr) : pystr :=
  if forallb is_ascii s then List.map ascii_upper s else ucd_upper ucd s.

(** [c.isalpha()] for one character *)
Definition py_isalpha (c : N) : bool :=
  if is_ascii c then ascii_is_alpha c else ucd_isalpha ucd c.

(** The decimal value of a character of category Nd, which is what the
    regex class [\d] matches and what [int] and [float] read as a digit.
    No whitespace character is a digit, and a digit value is below ten. *)
Definition decimal_value (c : N) : option N :=
  if is_ascii c then (if ascii_is_digit c then Some (c - 48)%N else None)
  else if is_space c then None
  else match ucd_decimal ucd c with
       | Some d => if (d <? 10)%N then Some d else None
       | None => None
       end.

Definition is_digit (c : N) : bool :=
  match decimal_value c with Some _ => true | None => false end.

(** ** Numbers: [int(s)] and [float(s)] *)

(** CPython first rewrites the string to ASCII: a non-ASCII space becomes a
    blank, a non-ASCII decimal digit its ASCII digit, any other non-ASCII
    character makes the conversion fail. *)
Fixpoint to_ascii_number (s : pystr) : option pystr :=
  match s with
  | [] => Some []
  | c :: s' =>
      c' ← (if (c <? 127)%N then Some c
            else if is_space c then Some 32%N
            else (fun d => 48 + d)%N <$> decimal_value c);
      t ← to_ascii_number s';
      Some (c' :: t)
  end.

End Unicode.

(** [Py_ISSPACE] of the C locale *)
Definition c_isspace (c : N) : bool := ((9 <=? c) && (c <=? 13) || (c =? 32))%N.

(** An underscore is allowed between two digits only; [strip_underscores]
    removes them, or fails.  [prev] is the previous character. *)
Fixpoint strip_underscores (prev : option N) (s : pystr) : option pystr :=
  match s with
  | [] => if bool_decide (prev = Some 95%N) then None else Some []
  | c :: s' =>
      if (c =? 95)%N
      then (if from_option ascii_is_digit false prev
            then strip_underscores (Some c) s' else None)
      else if bool_decide (prev = Some 95%N) && negb (ascii_is_digit c) then None
      else cons c <$> strip_underscores (Some c) s'
  end.

(** An optional sign, [-] or [+], and what follows it. *)
Definition split_sign (s : pystr) : bool * pystr :=
  match s with
  | c :: s' =>
      if (c =? 45)%N then (true, s')
      else if (c =? 43)%N then (false, s')
      else (false, s)
  | [] => (false, s)
  end.

(** The number an ASCII digit string denotes, most significant digit first. *)
Definition digits_to_Z (ds : pystr) : Z :=
  fold_left (fun acc c => (10 * acc + Z.of_N (c - 48))%Z) ds 0%Z.

(** [int(s)]; [None] is [ValueError].  The optional cap on the number of
    digits ([sys.set_int_max_str_digits]) is taken as switched off. *)
Definition py_int (ucd : UCD) (s : pystr) : option Z :=
  t ← to_ascii_number ucd s;
  let '(neg, body) := split_sign (strip_chars c_isspace t) in
  ds ← strip_underscores None body;
  if forallb ascii_is_digit ds && negb (bool_decide (ds = []))
  then Some (if neg then - digits_to_Z ds else digits_to_Z ds)%Z
  else None.

(** The binary64 nearest to [m * 10 ^ e10] (ties to even), [m > 0]. *)
Definition decimal_to_float (neg : bool) (m e10 : Z) : spec_float :=
  match m with
  | Z0 => S754_zero neg
  | _ =>
      if (0 <=? e10)%Z
      then binary_normalize 53 1024 ((if neg then - m else m) * 10 ^ e10)%Z 0 false
      else let '(q, e, l) := SFdiv_core_binary 53 1024 m 0 (10 ^ (- e10))%Z 0 in
           binary_round_aux 53 1024 neg q e l
  end.

(** The exponent part of a float literal: nothing, or [e] or [E], an
    optional sign and at least one digit. *)
Definition parse_exponent (s : pystr) : option Z :=
  match s with
  | [] => Some 0%Z
  | c :: s' =>
      if (c =? 101)%N || (c =? 69)%N
      then let '(neg, ds) := split_sign s' in
           if forallb ascii_is_digit ds && negb (bool_decide (ds = []))
           then Some (if neg then - digits_to_Z ds else digits_to_Z ds)%Z
           else None
      else None
  end.

Definition parse_float_body (neg : bool) (s : pystr) : option spec_float :=
  let low := List.map ascii_lower s in
  if bool_decide (low = u8 "inf") || bool_decide (low = u8 "infinity")
  then Some (S754_infinity neg)
  else if bool_decide (low = u8 "nan") then Some S754_nan
  else
    let ip := take_while ascii_is_digit s in
    let r1 := drop_while ascii_is_digit s in
    let '(fp, r2) := match r1 with
                     | 46%N :: r => (take_while ascii_is_digit r, drop_while ascii_is_digit r)
                     | _ => ([], r1)
                     end in
    if bool_decide (ip ++ fp = []) then None
    else
      ex ← parse_exponent r2;
      Some (decimal_to_float neg (digits_to_Z (ip ++ fp)) (ex - Z.of_nat (length fp))).

(** [float(s)]; [None] is [ValueError]. *)
Definition py_float (ucd : UCD) (s : pystr) : option spec_float :=
  t ← to_ascii_number ucd s;
  body ← strip_underscores None (strip_chars c_isspace t);
  let '(neg, r) := split_sign body in
  parse_float_body neg r.

(** Python numbers as the pipeline has them. *)
Inductive pynum :=
| PyInt (z : Z)
| PyFloat (f : spec_float).

Definition float_is_zero (f : spec_float) : bool :=
  match f with S754_zero _ => true | _ => false end.

(** [n == 0] *)
Definition num_is_zero (n : pynum) : bool :=
  match n with
  | PyInt z => (z =? 0)%Z
  | PyFloat f => float_is_zero f
  end.

(** [float(z)] for an [int]: [OverflowError] when it rounds out of range. *)
Definition float_of_int (z : Z) : result spec_float :=
  match binary_normalize 53 1024 z 0 false with
  | S754_infinity _ => Raise OverflowError
  | f => Ok f
  end.

(** [a + b] *)
Definition num_add (a b : pynum) : result pynum :=
  match a, b with
  | PyInt x, PyInt y => Ok (PyInt (x + y))
  | PyInt x, PyFloat g => f ← float_of_int x; Ok (PyFloat (SFadd 53 1024 f g))
  | PyFloat f, PyInt y => g ← float_of_int y; Ok (PyFloat (SFadd 53 1024 f g))
  | PyFloat f, PyFloat g => Ok (PyFloat (SFadd 53 1024 f g))
  end.

(** ** Regular expressions of the source, written out *)

(** [re.findall(r"\d+", s)]: the maximal runs of digits, left to right. *)
Fixpoint digit_runs_from (ucd : UCD) (cur : pystr) (s : pystr) : list pystr :=
  match s with
  | [] => match cur with [] => [] | _ => [rev cur] end
  | c :: s' =>
      if is_digit ucd c then digit_runs_from ucd (c :: cur) s'
      else match cur with
           | [] => digit_runs_from ucd [] s'
           | _ => rev cur :: digit_runs_from ucd [] s'
           end
  end.

Definition re_findall_digits (ucd : UCD) (s : pystr) : list pystr :=
  digit_runs_from ucd [] s.

(** [re.search(r"\d+", s)]: the first run, if any. *)
Definition re_search_digits (ucd : UCD) (s : pystr) : option pystr :=
  let r := take_while (is_digit ucd) (drop_while (fun c => negb (is_digit ucd c)) s) in
  match r with [] => None | _ => Some r end.

(** [re.match(r"^(\d+)", s)]: the leading run, if not empty. *)
Definition re_match_leading_digits (ucd : UCD) (s : pystr) : option pystr :=
  match take_while (is_digit ucd) s with
  | [] => None
  | r => Some r
  end.

(** [$]: the end of the string, or just before a final newline. *)
Definition at_dollar (s : pystr) : bool :=
  match s with
  | [] => true
  | [c] => (c =? 10)%N
  | _ => false
  end.

(** [re.match(r"^\d+(?:\.\d+)?$", s)] *)
Definition re_match_item_index (ucd : UCD) (s : pystr) : bool :=
  let d1 := take_while (is_digit ucd) s in
  let r1 := drop_while (is_digit ucd) s in
  negb (bool_decide (d1 = [])) &&
  (at_dollar r1 ||
   match r1 with
   | c :: r =>
       (c =? 46)%N &&
       negb (bool_decide (take_while (is_digit ucd) r = [])) &&
       at_dollar (drop_while (is_digit ucd) r)
   | [] => false
   end).

(** [re.sub(r"\s+", " ", s)]: every run of whitespace becomes one blank.
    [in_ws] tells that the previous character was whitespace. *)
Fixpoint collapse_ws_from (in_ws : bool) (s : pystr) : pystr :=
  match s with
  | [] => []
  | c :: s' =>
      if is_space c
      then (if in_ws then collapse_ws_from true s' else 32%N :: collapse_ws_from true s')
      else c :: collapse_ws_from false s'
  end.

Definition collapse_ws (s : pystr) : pystr := collapse_ws_from false s.

(** ** Cell helpers *)

(** A table cell: text, or [None]. *)
Abbreviation cell := (option pystr).

(** [str(x)] of a cell *)
Definition py_str (c : cell) : pystr :=
  match c with
  | None => u8 "None"
  | Some s => s
  end.

Definition clean_cell (text : cell) : pystr :=
  match text with
  | None => []
  | Some s => py_strip (py_replace_char 10 32 s)
  end.

Definition strip_non_ascii (s : pystr) : pystr := List.filter is_ascii s.

Definition normalize_text (ucd : UCD) (s : pystr) : pystr := ucd_nfkc ucd s.

(** A character against a lower-case ASCII letter of a pattern compiled with
    [re.IGNORECASE]. *)
Definition ignorecase_eq (ucd : UCD) (c x : N) : bool :=
  if is_ascii c then (ascii_lower c =? x)%N
  else if is_space c then false
  else ucd_ignorecase_eq ucd c x.

(** Matches the lower-case ASCII word [p] at the head of [s] ignoring case,
    and returns what follows. *)
Fixpoint ignorecase_prefix (ucd : UCD) (p s : pystr) : option pystr :=
  match p, s with
  | [], _ => Some s
  | _ :: _, [] => None
  | x :: p', c :: s' =>
      if ignorecase_eq ucd c x then ignorecase_prefix ucd p' s' else None
  end.

(** [(in\s+preparation)\s*$] at the head of [s] *)
Definition re_in_preparation (ucd : UCD) (s : pystr) : bool :=
  match ignorecase_prefix ucd (u8 "in") s with
  | Some r =>
      match r with
      | c :: _ =>
          is_space c &&
          match ignorecase_prefix ucd (u8 "preparation") (drop_while is_space r) with
          | Some t => forallb is_space t
          | None => false
          end
      | [] => false
      end
  | None => false
  end.

(** [_TRIVIAL_NOTE_REGEX.match(n)] *)
Definition trivial_note_regex (ucd : UCD) (n : pystr) : bool :=
  let s0 := drop_while is_space n in
  (startswith (u8 "欠図") s0 &&
   re_in_preparation ucd (drop_while is_space (drop 2 s0)))
  || re_in_preparation ucd s0.

Definition is_trivial_note (ucd : UCD) (note : pystr) : bool :=
  match note with
  | [] => false
  | _ =>
      let n := py_strip (normalize_text ucd note) in
      if trivial_note_regex ucd n then true
      else if bool_decide (n = u8 "欠図") then true
      else false
  end.

Definition normalize_note (ucd : UCD) (s : pystr) : pystr :=
  if bool_decide (s = []) || is_trivial_note ucd s then []
  else
    let s := py_strip (normalize_text ucd s) in
    let s := collapse_ws s in
    let s := strip_chars (fun c => existsb (N.eqb c) (u8 " ;:-")) s in
    py_lower ucd s.

(** ** Deletion detector *)

(** A colour as pdfplumber reports it: absent, or a tuple of components. *)
Abbreviation color := (option (list Q)).

(** [c == (1.0, 0.0, 0.0)] *)
Definition is_pure_red (c : color) : bool :=
  match c with
  | Some [r; g; b] => Qeq_bool r 1 && Qeq_bool g 0 && Qeq_bool b 0
  | _ => false
  end.

(** A drawn line, a curve or a glyph of a page, with the keys the detector
    reads. *)
Record page_object := {
  stroking_color : color;
  non_stroking_color : color;
  x0 : option Q;
  top : Q;
  bottom : Q
}.

Abbreviation row := (list cell).
Abbreviation table := (list row).

(** A page as the extraction primitive presents it.  [crop_text bbox] is
    [page.crop(bbox).extract_text()], which raises when the box leaves the
    page. *)
Record Page := {
  lines : list page_object;
  curves : list page_object;
  chars : list page_object;
  crop_text : Q * Q * Q * Q -> result (option pystr);
  extract_tables : list table;
  extract_text : option pystr
}.

(** The body the three loops of [get_deleted_indices] share: crop the gutter
    strip around [o], and add the first integer of its text. *)
Definition flag_gutter_index (ucd : UCD) (page : Page) (deleted : gset Z)
    (o : page_object) : result (gset Z) :=
  s ← crop_text page (0, top o - 13, 103, bottom o + 10)%Q;
  Ok (match s with
      | Some ((_ :: _) as s) =>
          match re_search_digits ucd s with
          | Some m =>
              match py_int ucd m with
              | Some n => {[ n ]} ∪ deleted
              | None => deleted
              end
          | None => deleted
          end
      | _ => deleted
      end).

(** A [for] loop whose body may raise. *)
Fixpoint for_each {A S} (xs : list A) (body : S -> A -> result S) (s : S) : result S :=
  match xs with
  | [] => Ok s
  | x :: xs' => s' ← body s x; for_each xs' body s'
  end.

Definition get_deleted_indices (ucd : UCD) (page : Page) : result (gset Z) :=
  deleted ← for_each (lines page)
    (fun deleted l =>
       if is_pure_red (stroking_color l)
       then flag_gutter_index ucd page deleted l else Ok deleted) ∅;
  deleted ← for_each (curves page)
    (fun deleted c =>
       if is_pure_red (stroking_color c)
       then flag_gutter_index ucd page deleted c else Ok deleted) deleted;
  for_each (chars page)
    (fun deleted ch =>
       if is_pure_red (non_stroking_color ch)
          && negb (Qle_bool 103 (default 9999%Q (x0 ch)))
       then flag_gutter_index ucd page deleted ch else Ok deleted) deleted.

Definition parse_index_int (ucd : UCD) (idx_text : pystr) : option Z :=
  match re_match_leading_digits ucd (py_strip idx_text) with
  | None => None
  | Some m => py_int ucd m
  end.

(** ** Table locator *)

Fixpoint find_index {A} (p : A -> bool) (l : list A) : option nat :=
  match l with
  | [] => None
  | x :: l' => if p x then Some 0 else S <$> find_index p l'
  end.

(** The condition of the header search of [parse_bom_pdf]. *)
Definition is_header_row (ucd : UCD) (r : row) : bool :=
  existsb (fun c => startswith (u8 "level") (py_lower ucd (clean_cell c))) r
  && existsb (fun c => startswith (u8 "part number") (py_lower ucd (clean_cell c))) r.

(** [hdr_i]: the first header row among [tbl[:6]], else row 2. *)
Definition locate_header (ucd : UCD) (tbl : table) : nat :=
  default 2 (find_index (is_header_row ucd) (take 6 tbl)).

(** The dictionary [cmap]: a column index, or [None], per role.  A role the
    header does not name has no key before the [setdefault] calls. *)
Record ColumnMap := {
  col_part_number : option nat;
  col_part_name : option nat;
  col_quantity : option nat;
  col_change : option nat;
  col_note : option nat
}.

Definition map_column (ucd : UCD) (cmap : ColumnMap) (ci : nat) (c : cell) : ColumnMap :=
  let txt := py_lower ucd (clean_cell c) in
  if contains (u8 "part number") txt then
    {| col_part_number := Some ci; col_part_name := col_part_name cmap;
       col_quantity := col_quantity cmap; col_change := col_change cmap;
       col_note := col_note cmap |}
  else if contains (u8 "part name") txt then
    {| col_part_number := col_part_number cmap; col_part_name := Some ci;
       col_quantity := col_quantity cmap; col_change := col_change cmap;
       col_note := col_note cmap |}
  else if contains (u8 "qty") txt then
    {| col_part_number := col_part_number cmap; col_part_name := col_part_name cmap;
       col_quantity := Some ci; col_change := col_change cmap;
       col_note := col_note cmap |}
  else if contains (u8 "change") txt || startswith (u8 "rev") txt then
    {| col_part_number := col_part_number cmap; col_part_name := col_part_name cmap;
       col_quantity := col_quantity cmap; col_change := Some ci;
       col_note := col_note cmap |}
  else if contains (u8 "note") txt || contains (u8 "備") txt then
    {| col_part_number := col_part_number cmap; col_part_name := col_part_name cmap;
       col_quantity := col_quantity cmap; col_change := col_change cmap;
       col_note := Some ci |}
  else cmap.

Fixpoint map_columns_from (ucd : UCD) (ci : nat) (hdr : row) (cmap : ColumnMap) : ColumnMap :=
  match hdr with
  | [] => cmap
  | c :: hdr' => map_columns_from ucd (S ci) hdr' (map_column ucd cmap ci c)
  end.

(** The column map of a header row, after the [setdefault] calls: the part
    number and part name columns fall back to 6 and 19, the others to
    [None]. *)
Definition map_columns (ucd : UCD) (hdr : row) : ColumnMap :=
  let cmap := map_columns_from ucd 0 hdr
                {| col_part_number := None; col_part_name := None;
                   col_quantity := None; col_change := None; col_note := None |} in
  {| col_part_number := Some (default 6 (col_part_number cmap));
     col_part_name := Some (default 19 (col_part_name cmap));
     col_quantity := col_quantity cmap;
     col_change := col_change cmap;
     col_note := col_note cmap |}.

(** [cmap['part_number']] and [cmap['part_name']], which are never [None]. *)
Definition part_number_col (cmap : ColumnMap) : nat := default 6 (col_part_number cmap).
Definition part_name_col (cmap : ColumnMap) : nat := default 19 (col_part_name cmap).

(** [clean_cell(row[ci])] when [ci] is not [None] and [ci < len(row)], else
    the empty string. *)
Definition mapped_cell (r : row) (ci : option nat) : pystr :=
  match ci with
  | Some i => match r !! i with Some c => clean_cell c | None => [] end
  | None => []
  end.

(** ** Row normaliser *)

Record BomEntry := {
  level : nat;
  part_name : pystr;
  display_name : pystr;
  note : pystr;
  note_norm : pystr;
  part_number : pystr;
  drawing_no : pystr;
  change : pystr;
  quantity : option pynum;
  flag_multiline_en : bool;
  flag_note_used : bool
}.

(** [JAPANESE_RE]: U+3000 to U+30FF and U+4E00 to U+9FAF. *)
Definition is_japanese (c : N) : bool :=
  ((12288 <=? c) && (c <=? 12543) || (19968 <=? c) && (c <=? 40879))%N.

(** The first non-empty cell among columns 1 to 5, else 1. *)
Definition detect_level (r : row) : nat :=
  default 1 (List.find (fun ci => match r !! ci with
                                  | Some c => negb (bool_decide (clean_cell c = []))
                                  | None => false
                                  end) (seq 1 5)).

(** The non-empty stripped lines of the part-name cell. *)
Definition raw_lines (raw : cell) : list pystr :=
  List.filter (fun ln => negb (bool_decide (ln = [])))
              (List.map py_strip (py_splitlines (py_str raw))).

(** One step of the flattening loop, for a line after the first. *)
Definition flatten_step (ucd : UCD) (flat ln : pystr) : pystr :=
  let ln := py_strip ln in
  if negb (bool_decide (flat = []))
     && from_option (py_isalpha ucd) false (last flat)
     && from_option (py_isalpha ucd) false (head ln)
     && negb (bool_decide (last flat = Some 32%N))
  then flat ++ ln
  else flat ++ 32%N :: ln.

Definition flatten_lines (ucd : UCD) (content : list pystr) : pystr :=
  match content with
  | [] => []
  | ln :: rest => fold_left (flatten_step ucd) rest (py_strip ln)
  end.

(** [w.isupper()] of an ASCII word: it has an upper-case letter and no
    lower-case one. *)
Definition ascii_isupper (w : pystr) : bool :=
  existsb ascii_is_upper w && negb (existsb ascii_is_lower w).

(** [w.lower().capitalize()] of an ASCII word *)
Definition ascii_capitalize (w : pystr) : pystr :=
  match w with
  | [] => []
  | c :: w' => ascii_upper c :: List.map ascii_lower w'
  end.

(** [fmt]; its argument is a word of [strip_non_ascii(flat).split()], hence
    ASCII. *)
Definition fmt (cut_threshold : nat) (w : pystr) : pystr :=
  if existsb ascii_is_digit w then List.map ascii_upper w
  else if ascii_isupper w && (length w <=? cut_threshold)%nat then w
  else ascii_capitalize w.

(** The part-name part of the row loop: from the lines of the cell to
    [content] after the filtering. *)
Definition english_content (cut_threshold : nat) (raw_lines_all : list pystr) : list pystr :=
  let content := if (1 <? length raw_lines_all)%nat
                 then drop 1 raw_lines_all else take 1 raw_lines_all in
  match content with
  | [] => content
  | cand :: rest =>
      let eng := List.filter ascii_is_alpha cand in
      if existsb is_japanese cand || (length eng <? cut_threshold)%nat
      then rest else content
  end.

(** [pname] of a row from the lines of its part-name cell. *)
Definition reconstruct_name (ucd : UCD) (cut_threshold : nat)
    (raw_lines_all : list pystr) : pystr :=
  let content := english_content cut_threshold raw_lines_all in
  let words := py_split (strip_non_ascii (flatten_lines ucd content)) in
  py_strip (py_join [32%N] (List.map (fmt cut_threshold) words)).

(** [had_multiline_english] *)
Definition multiline_english (cut_threshold : nat) (raw_lines_all : list pystr) : bool :=
  (1 <? length (english_content cut_threshold raw_lines_all))%nat.

(** [chg]: the last run of digits of the change cell, else ["0"]. *)
Definition revision_of (ucd : UCD) (raw_chg : pystr) : pystr :=
  default (u8 "0") (last (re_findall_digits ucd raw_chg)).

(** [qty]: [int(qt)] when it parses, else [float(qt)], else [None]; a blank
    cell is [None]. *)
Definition parse_quantity (ucd : UCD) (qt : pystr) : option pynum :=
  match qt with
  | [] => None
  | _ =>
      match py_int ucd qt with
      | Some z => Some (PyInt z)
      | None =>
          match py_float ucd qt with
          | Some f => Some (PyFloat f)
          | None => None
          end
      end
  end.

Section RowNormalizer.
Context (ucd : UCD) (cut_threshold : nat).

(** The body of the row loop of [parse_bom_pdf]: [Ok None] is [continue],
    [Ok (Some e)] is [entries.append(e)].  [row[0]] raises on an empty
    row. *)
Definition normalize_row (deleted_idxs : gset Z) (cmap : ColumnMap) (r : row)
    : result (option BomEntry) :=
  c0 ← py_index r 0;
  let idx := clean_cell c0 in
  if bool_decide (idx = []) || negb (re_match_item_index ucd idx) then Ok None else
  let idx_int := parse_index_int ucd idx in
  if match idx_int with
     | Some n => bool_decide (n ∈ deleted_idxs)
     | None => false
     end then Ok None else
  let level := detect_level r in
  let raw := match r !! part_name_col cmap with Some c => c | None => Some [] end in
  let raw_lines_all := raw_lines raw in
  let raw_text := py_lower ucd (py_join [32%N] raw_lines_all) in
  if (level =? 1)%nat && contains (u8 "outline drawing") raw_text then Ok None else
  let note := mapped_cell r (col_note cmap) in
  let note := if is_trivial_note ucd note then [] else note in
  let had_multiline_english := multiline_english cut_threshold raw_lines_all in
  let pname := reconstruct_name ucd cut_threshold raw_lines_all in
  if bool_decide (pname = []) then Ok None else
  let pn := match r !! part_number_col cmap with
            | Some c => normalize_text ucd (clean_cell c)
            | None => []
            end in
  let dn := pn in
  let raw_chg := mapped_cell r (col_change cmap) in
  let chg := revision_of ucd raw_chg in
  let qt := mapped_cell r (col_quantity cmap) in
  let qty := parse_quantity ucd qt in
  let note_used_as_display := negb (bool_decide (note = [])) in
  Ok (Some {| level := level;
              part_name := pname;
              display_name := if bool_decide (note = []) then pname else note;
              note := note;
              note_norm := normalize_note ucd note;
              part_number := pn;
              drawing_no := dn;
              change := chg;
              quantity := qty;
              flag_multiline_en := had_multiline_english;
              flag_note_used := note_used_as_display |}).

(** The row loop: the entries of the rows, appended in order. *)
Definition parse_rows (deleted_idxs : gset Z) (cmap : ColumnMap) (rows : list row)
    (entries : list BomEntry) : result (list BomEntry) :=
  for_each rows
    (fun entries r =>
       e ← normalize_row deleted_idxs cmap r;
       Ok (match e with Some e => entries ++ [e] | None => entries end))
    entries.

(** The body of the page loop.  A page without a table is skipped, after its
    deletion set was computed; [tbl[hdr_i]] raises when the fallback row 2
    does not exist. *)
Definition parse_page (entries : list BomEntry) (page : Page) : result (list BomEntry) :=
  deleted_idxs ← get_deleted_indices ucd page;
  match extract_tables page with
  | [] => Ok entries
  | tbl :: _ =>
      let hdr_i := locate_header ucd tbl in
      hdr ← py_index tbl hdr_i;
      let cmap := map_columns ucd hdr in
      parse_rows deleted_idxs cmap (drop (hdr_i + 1) tbl) entries
  end.

Definition parse_pages (pages : list Page) : result (list BomEntry) :=
  for_each pages parse_page [].

End RowNormalizer.

Definition CUT_THRESHOLD : nat := 3.

(** [parse_bom_pdf], on the pages of the opened document. *)
Definition parse_bom_pdf (ucd : UCD) (pages : list Page) : result (list BomEntry) :=
  parse_pages ucd CUT_THRESHOLD pages.

(** ** Metadata extractor *)

(** The test of the loop of [parse_pdf_metadata] on one line. *)
Definition is_anchor_line (ucd : UCD) (line : pystr) : bool :=
  let up := py_upper ucd line in
  startswith (u8 "PRODUCT NUMBER") up && contains (u8 "CUSTOMER") up.

(** The loop of [parse_pdf_metadata] from index [i] on; [prev] is
    [lines[i-1]] when [i > 0].  The first anchor line ends the loop, by
    [return] or by [break]. *)
Fixpoint scan_metadata (ucd : UCD) (prev : option pystr) (lines : list pystr)
    : pystr * pystr :=
  match lines with
  | [] => ([], [])
  | line :: rest =>
      if is_anchor_line ucd line
      then match prev with
           | Some p =>
               match py_split p with
               | p0 :: p1 :: _ =>
                   (strip_non_ascii (normalize_text ucd p1),
                    strip_non_ascii (normalize_text ucd p0))
               | _ => ([], [])
               end
           | None => ([], [])
           end
      else scan_metadata ucd (Some line) rest
  end.

(** The non-empty stripped lines of the concatenated page texts. *)
Definition metadata_lines (pages : list Page) : list pystr :=
  let full_text := concat (List.map (fun p => default [] (extract_text p)) pages) in
  List.filter (fun ln => negb (bool_decide (ln = [])))
              (List.map py_strip (py_splitlines full_text)).

Definition parse_pdf_metadata (ucd : UCD) (pages : list Page) : pystr * pystr :=
  scan_metadata ucd None (metadata_lines pages).

(** ** Multi-variant reconciler *)

(** One element of [sheets]: [(variant, ents, cust, prod)]. *)
Record Sheet := {
  sheet_variant : pystr;
  sheet_ents : list BomEntry;
  sheet_cust : pystr;
  sheet_prod : pystr
}.

(** A value of [parts]: the fields of the entry that seeded it, and
    ['qtys']. *)
Record MergedPart := {
  mp_entry : BomEntry;
  qtys : list (option pynum)
}.

Fixpoint uint_digits (d : Decimal.uint) : pystr :=
  match d with
  | Decimal.Nil => []
  | Decimal.D0 d => 48%N :: uint_digits d
  | Decimal.D1 d => 49%N :: uint_digits d
  | Decimal.D2 d => 50%N :: uint_digits d
  | Decimal.D3 d => 51%N :: uint_digits d
  | Decimal.D4 d => 52%N :: uint_digits d
  | Decimal.D5 d => 53%N :: uint_digits d
  | Decimal.D6 d => 54%N :: uint_digits d
  | Decimal.D7 d => 55%N :: uint_digits d
  | Decimal.D8 d => 56%N :: uint_digits d
  | Decimal.D9 d => 57%N :: uint_digits d
  end.

(** [str(n)] of a non-negative [int] *)
Definition str_of_nat (n : nat) : pystr := uint_digits (Nat.to_uint n).

Definition make_key (r : BomEntry) (vi seq : nat) : pystr :=
  if (level r =? 1)%nat
  then part_number r ++ u8 "@@n=" ++ note_norm r
  else part_number r ++ u8 "@@v" ++ str_of_nat vi ++ u8 "@@i" ++ str_of_nat seq.

(** The variables of the loop that builds [parts]. *)
Record merge_state := {
  parts : gmap pystr MergedPart;
  initial_order : list pystr;
  seq_counter : nat
}.

(** [existing or 0] *)
Definition or_zero (existing : option pynum) : pynum :=
  match existing with
  | None => PyInt 0
  | Some x => if num_is_zero x then PyInt 0 else x
  end.

(** The new value of a slot holding [existing] when [q_add] is sighted:
    [None], or the slot unchanged when [q_add] is [None]. *)
Definition accumulate (existing q_add : option pynum) : result (option pynum) :=
  match q_add with
  | None => Ok existing
  | Some q =>
      new_total ← num_add (or_zero existing) q;
      Ok (if num_is_zero new_total then None else Some new_total)
  end.

(** The body of the inner loop for entry [r] of variant [vi], with
    [n = len(sheets)]. *)
Definition sight (n : nat) (vi : nat) (st : merge_state) (r : BomEntry)
    : result merge_state :=
  let key := make_key r vi (seq_counter st) in
  let seq := S (seq_counter st) in
  let fresh := {| mp_entry := r; qtys := replicate n None |} in
  let '(p, parts1) := match parts st !! key with
                      | Some p => (p, parts st)
                      | None => (fresh, <[key := fresh]> (parts st))
                      end in
  existing ← py_index (qtys p) vi;
  slot ← accumulate existing (quantity r);
  let parts2 := match quantity r with
                | None => parts1
                | Some _ => <[key := {| mp_entry := mp_entry p;
                                        qtys := <[vi := slot]> (qtys p) |}]> parts1
                end in
  Ok {| parts := parts2;
        initial_order := if bool_decide (key ∈ initial_order st)
                         then initial_order st else initial_order st ++ [key];
        seq_counter := seq |}.

(** The outer loop from variant [vi] on. *)
Fixpoint merge_sheets (n : nat) (vi : nat) (sheets : list Sheet) (st : merge_state)
    : result merge_state :=
  match sheets with
  | [] => Ok st
  | sh :: sheets' =>
      st' ← for_each (sheet_ents sh) (sight n vi) st;
      merge_sheets n (S vi) sheets' st'
  end.

(** The first phase of [write_combined_excel]: [parts] and [initial_order]
    after the loop over all variants. *)
Definition build_parts (sheets : list Sheet) : result merge_state :=
  merge_sheets (length sheets) 0 sheets
    {| parts := ∅; initial_order := []; seq_counter := 0 |}.

(** ** A database excerpt for the examples

    [sample_ucd] is CPython's database on the characters the examples below
    are made of (ASCII is computed above): CJK unified ideographs and kana
    are letters without case, full-width digits are decimal digits, NFKC folds
    the full-width forms and the ideographic space, and dotted capital I,
    dotless i, long s and the Kelvin sign match [i], [i], [s] and [k] when
    case is ignored. *)
Definition sample_fold_case (f : N -> N) (s : pystr) : pystr :=
  List.map (fun c => if is_ascii c then f c else c) s.

Definition sample_ucd : UCD := {|
  ucd_lower := sample_fold_case ascii_lower;
  ucd_upper := sample_fold_case ascii_upper;
  ucd_isalpha := fun c =>
    ((19968 <=? c) && (c <=? 40869) || (12353 <=? c) && (c <=? 12438)
     || (12449 <=? c) && (c <=? 12538))%N;
  ucd_decimal := fun c =>
    if ((65296 <=? c) && (c <=? 65305))%N then Some (c - 65296)%N else None;
  ucd_nfkc := List.map (fun c =>
    if ((65281 <=? c) && (c <=? 65374))%N then (c - 65248)%N
    else if (c =? 12288)%N then 32%N else c);
  ucd_ignorecase_eq := fun c x =>
    ((x =? 105) && ((c =? 304) || (c =? 305)) || (x =? 115) && (c =? 383)
     || (x =? 107) && (c =? 8490))%N
|}.

(** ** Notions the properties are stated with *)

(** [s] is one or two non-empty groups of digits, two being joined by a
    dot. *)
Definition dotted_decimal (ucd : UCD) (s : pystr) : Prop :=
  ∃ d1, d1 ≠ [] ∧ forallb (is_digit ucd) d1 = true ∧
        (s = d1 ∨ ∃ d2, d2 ≠ [] ∧ forallb (is_digit ucd) d2 = true ∧ s = d1 ++ 46%N :: d2).

(** What the scan of [digit_runs_from] emits for the run [cur] being read. *)
Definition flush (cur : pystr) : list pystr :=
  match cur with [] => [] | _ => [rev cur] end.

(** The number a string of digits denotes. *)
Definition digits_value (ucd : UCD) (ds : pystr) : Z :=
  fold_left (fun acc c => (10 * acc + Z.of_N (default 0%N (decimal_value ucd c)))%Z) ds 0%Z.


(** [run] is the last run of digits of [s]: digits only, at least one,
    no digit after it and none just before it. *)
Definition last_digit_run (ucd : UCD) (s run : pystr) : Prop :=
  ∃ pre post, s = pre ++ run ++ post ∧ run ≠ [] ∧
              forallb (is_digit ucd) run = true ∧
              forallb (fun c => negb (is_digit ucd c)) post = true ∧
              from_option (fun c => negb (is_digit ucd c)) true (last pre) = true.

(** Row [r] of [page] is a data row of the page's first table, and the row
    loop appends [e] for it. *)
Definition emits (ucd : UCD) (cut_threshold : nat) (page : Page) (r : row) (e : BomEntry)
    : Prop :=
  ∃ deleted_idxs tbl others hdr,
    get_deleted_indices ucd page = Ok deleted_idxs ∧
    extract_tables page = tbl :: others ∧
    tbl !! locate_header ucd tbl = Some hdr ∧
    r ∈ drop (locate_header ucd tbl + 1) tbl ∧
    normalize_row ucd cut_threshold deleted_idxs (map_columns ucd hdr) r = Ok (Some e).

(** The header condition as the specification words it: a cell that starts
    with [level], and a cell that contains [part number]. *)
Definition spec_header_row (ucd : UCD) (r : row) : bool :=
  existsb (fun c => startswith (u8 "level") (py_lower ucd (clean_cell c))) r
  && existsb (fun c => contains (u8 "part number") (py_lower ucd (clean_cell c))) r.

(** The sightings of the reconciler's loop, in order: the key, the variant
    index and the entry of each iteration, [seq] counting the iterations
    before. *)
Fixpoint sightings_of (vi seq : nat) (ents : list BomEntry) : list (pystr * nat * BomEntry) :=
  match ents with
  | [] => []
  | r :: ents' => (make_key r vi seq, vi, r) :: sightings_of vi (S seq) ents'
  end.

Fixpoint sightings_from (vi seq : nat) (sheets : list Sheet) : list (pystr * nat * BomEntry) :=
  match sheets with
  | [] => []
  | sh :: sheets' =>
      sightings_of vi seq (sheet_ents sh)
      ++ sightings_from (S vi) (seq + length (sheet_ents sh)) sheets'
  end.

Definition sightings (sheets : list Sheet) : list (pystr * nat * BomEntry) :=
  sightings_from 0 0 sheets.

(** The quantities, absent ones included, of the sightings of [key] within
    variant [vi], in order. *)
Definition sighted_quantities (ss : list (pystr * nat * BomEntry)) (key : pystr) (vi : nat)
    : list (option pynum) :=
  List.map (fun s => quantity s.2)
           (List.filter (fun s => bool_decide (s.1.1 = key) && (s.1.2 =? vi)%nat) ss).

(** A slot that starts at [slot] after the quantities [qs] were added one
    by one. *)
Definition running_total (qs : list (option pynum)) (slot : option pynum)
    : result (option pynum) :=
  for_each qs accumulate slot.

(** The integers among quantities; an absent one counts for nothing. *)
Definition int_quantity (q : option pynum) : option Z :=
  match q with
  | None => Some 0%Z
  | Some (PyInt z) => Some z
  | Some (PyFloat _) => None
  end.

(** The slot of variant [v] in the part of [key]; absent when there is no
    such part or no such slot. *)
Definition slot_of (st : merge_state) (key : pystr) (v : nat) : option pynum :=
  match parts st !! key with
  | Some p => default None (qtys p !! v)
  | None => None
  end.

(** Every quantity vector has one slot per variant. *)
Definition vectors_sized (n : nat) (st : merge_state) : Prop :=
  ∀ k p, parts st !! k = Some p -> length (qtys p) = n.

Definition sum_Z (zs : list Z) : Z := foldr Z.add 0%Z zs.

(** A slot that holds the total [z]: absent for zero. *)
Definition slot_of_total (z : Z) : option pynum :=
  if (z =? 0)%Z then None else Some (PyInt z).

(** Every slot is absent or an integer. *)
Definition integer_slots (st : merge_state) : Prop :=
  ∀ k p, parts st !! k = Some p ->
         Forall (fun s => is_Some (int_quantity s)) (qtys p).

(** Every quantity of the input is absent or an integer. *)
Definition integer_quantities (sheets : list Sheet) : Prop :=
  Forall (fun sh => Forall (fun r => is_Some (int_quantity (quantity r))) (sheet_ents sh))
         sheets.

(** ** Example data *)

Definition example_cmap : ColumnMap :=
  {| col_part_number := Some 6; col_part_name := Some 7; col_quantity := Some 8;
     col_change := Some 9; col_note := Some 10 |}.

(** A level-2 data row: index 12.3, a three-line part-name cell, quantity 2
    and a revision cell with two numbers. *)
Definition example_row : row :=
  [Some (u8 "12.3"); None; Some (u8 "x"); None; None; None; Some (u8 "PN-1");
   Some (u8 "部品名" ++ 10%N :: u8 "AS" ++ 10%N :: u8 "SY BRACKET");
   Some (u8 "2"); Some (u8 "Rev 3 (was 2)"); Some (u8 "in preparation")].

Definition example_name_lines : list pystr :=
  [u8 "部品名"; u8 "AS"; u8 "SY BRACKET"].

(** A table whose row 0 has a cell that starts with "level" and a cell
    that contains, but does not start with, "part number". *)
Definition example_table_contains : table :=
  [[Some (u8 "Level"); Some (u8 "Yazaki Part Number"); Some (u8 "Qty")];
   [Some (u8 "1"); Some (u8 "PN-1"); Some (u8 "2")];
   [Some (u8 "2"); Some (u8 "PN-2"); Some (u8 "1")];
   [Some (u8 "3"); Some (u8 "PN-3"); Some (u8 "4")]].

(** A table whose header is row 1. *)
Definition example_table : table :=
  [[Some (u8 "Spreadsheet of Variants"); None; None];
   [Some (u8 "Level"); Some (u8 "Part Number"); Some (u8 "Qty")];
   [Some (u8 "1"); Some (u8 "PN-1"); Some (u8 "2")];
   [Some (u8 "2"); Some (u8 "PN-2"); Some (u8 "1")]].

(** A page that has only text. *)
Definition text_page (text : pystr) : Page :=
  {| lines := []; curves := []; chars := [];
     crop_text := fun _ => Ok None;
     extract_tables := [];
     extract_text := Some text |}.

(** A document whose first anchor line is its first line, and which has a
    second anchor line after a line of two tokens. *)
Definition example_metadata_pages : list Page :=
  [text_page (u8 "Product Number / Customer" ++ 10%N :: u8 "P-100 C-200" ++ 10%N ::
              u8 "PRODUCT NUMBER  CUSTOMER" ++ [10%N])].

(** A first table with its header in row 0 and two data rows: item 12.3,
    which is [example_row], and item 13. *)
Definition example_bom_table : table :=
  [[Some (u8 "No"); Some (u8 "Level"); None; None; None; None; Some (u8 "Part Number");
    Some (u8 "Part Name"); Some (u8 "Qty"); Some (u8 "Change"); Some (u8 "Note")];
   example_row;
   [Some (u8 "13"); Some (u8 "x"); None; None; None; None; Some (u8 "PN-2");
    Some (u8 "部品" ++ 10%N :: u8 "BRACKET ASSY"); Some (u8 "1"); Some []; Some []]].

(** A page with that table and one pure-red line, the gutter strip around
    which reads 12.3. *)
Definition example_page : Page :=
  {| lines := [{| stroking_color := Some [1; 0; 0]%Q; non_stroking_color := None;
                  x0 := Some 20%Q; top := 200%Q; bottom := 200%Q |}];
     curves := []; chars := [];
     crop_text := fun _ => Ok (Some (u8 "12.3"));
     extract_tables := [example_bom_table];
     extract_text := None |}.

(** A top-level entry with the given part number, canonical name,
    normalised note and quantity. *)
Definition top_entry (pn name nn : pystr) (q : option pynum) : BomEntry :=
  {| level := 1; part_name := name;
     display_name := if bool_decide (nn = []) then name else nn;
     note := nn; note_norm := nn; part_number := pn; drawing_no := pn;
     change := u8 "0"; quantity := q; flag_multiline_en := false;
     flag_note_used := negb (bool_decide (nn = [])) |}.

Definition one_sheet (variant : pystr) (ents : list BomEntry) : Sheet :=
  {| sheet_variant := variant; sheet_ents := ents; sheet_cust := []; sheet_prod := [] |}.


(** One variant that lists the same top-level line twice, with quantities
    3 and -3. *)
Definition example_cancelling : list Sheet :=
  [one_sheet (u8 "A") [top_entry (u8 "PN-1") (u8 "Bracket") [] (Some (PyInt 3));
                       top_entry (u8 "PN-1") (u8 "Bracket") [] (Some (PyInt (-3)))]].

(** Variant A lists a line twice without a quantity; variant B lists it
    with quantity 2. *)
Definition example_absent : list Sheet :=
  [one_sheet (u8 "A") [top_entry (u8 "PN-1") (u8 "Bracket") [] None;
                       top_entry (u8 "PN-1") (u8 "Bracket") [] None];
   one_sheet (u8 "B") [top_entry (u8 "PN-1") (u8 "Bracket") [] (Some (PyInt 2))]].


(** A level-1 row that refers to an outline drawing. *)
Definition example_outline_row : row :=
  [Some (u8 "7"); Some (u8 "x"); None; None; None; None; Some (u8 "PN-7");
   Some (u8 "外形図" ++ 10%N :: u8 "Outline Drawing"); Some (u8 "1"); Some []; Some []].

(** A page whose first table has two rows and no header row. *)
Definition example_short_page : Page :=
  {| lines := []; curves := []; chars := [];
     crop_text := fun _ => Ok None;
     extract_tables := [[[Some (u8 "1"); Some (u8 "PN-1")];
                         [Some (u8 "2"); Some (u8 "PN-2")]]];
     extract_text := None |}.

(** A page with a black line, a red glyph right of the gutter, and a crop
    that always raises. *)
Definition example_unmarked_page : Page :=
  {| lines := [{| stroking_color := Some [0; 0; 0]%Q; non_stroking_color := None;
                  x0 := Some 20%Q; top := 5%Q; bottom := 5%Q |}];
     curves := [];
     chars := [{| stroking_color := None; non_stroking_color := Some [1; 0; 0]%Q;
                  x0 := Some 300%Q; top := 200%Q; bottom := 210%Q |}];
     crop_text := fun _ => Raise ValueError;
     extract_tables := [];
     extract_text := None |}.

(** The box [get_deleted_indices] crops around a page object. *)
Definition gutter_box (o : page_object) : Q * Q * Q * Q :=
  (0, top o - 13, 103, bottom o + 10)%Q.

(** [o] is an object of [page] the deletion detector reacts to: a pure-red
    line or curve, or a pure-red glyph left of x = 103. *)
Definition red_mark (page : Page) (o : page_object) : Prop :=
  (o ∈ lines page ∧ is_pure_red (stroking_color o) = true)
  ∨ (o ∈ curves page ∧ is_pure_red (stroking_color o) = true)
  ∨ (o ∈ chars page ∧ is_pure_red (non_stroking_color o) = true
     ∧ Qle_bool 103 (default 9999%Q (x0 o)) = false).


(** The roles the header scan of [parse_bom_pdf] assigns, and the role of
    one header cell: the first test of the [if]/[elif] chain its cleaned,
    lower-cased text passes. *)
Inductive column_role :=
| RolePartNumber | RolePartName | RoleQuantity | RoleChange | RoleNote.

#[global] Instance column_role_eq_dec : EqDecision column_role.
Proof. solve_decision. Defined.

Definition header_role (ucd : UCD) (c : cell) : option column_role :=
  let txt := py_lower ucd (clean_cell c) in
  if contains (u8 "part number") txt then Some RolePartNumber
  else if contains (u8 "part name") txt then Some RolePartName
  else if contains (u8 "qty") txt then Some RoleQuantity
  else if contains (u8 "change") txt || startswith (u8 "rev") txt then Some RoleChange
  else if contains (u8 "note") txt || contains (u8 "備") txt then Some RoleNote
  else None.

(** [cmap[role]] *)
Definition role_column (cmap : ColumnMap) (role : column_role) : option nat :=
  match role with
  | RolePartNumber => col_part_number cmap
  | RolePartName => col_part_name cmap
  | RoleQuantity => col_quantity cmap
  | RoleChange => col_change cmap
  | RoleNote => col_note cmap
  end.

(** The value [setdefault] gives a role the header does not name. *)
Definition role_default (role : column_role) : option nat :=
  match role with
  | RolePartNumber => Some 6
  | RolePartName => Some 19
  | _ => None
  end.


(** The loop body of the reconciler on a sighting; the key recorded in the
    sighting is not read, the body computes it from the state. *)
Definition sight_at (n : nat) (st : merge_state) (s : pystr * nat * BomEntry)
    : result merge_state :=
  sight n s.1.2 st s.2.

(** The keys of the sightings [ss] are those the loop computes when it
    starts with sequence number [seq]. *)
Definition keyed (seq : nat) (ss : list (pystr * nat * BomEntry)) : Prop :=
  ∀ i k v r, ss !! i = Some (k, v, r) -> k = make_key r v (seq + i).

(** The keys [ks] without repeats, each at its first occurrence, after the
    keys [acc] already seen. *)
Definition first_seen_from (acc ks : list pystr) : list pystr :=
  fold_left (fun acc k => if bool_decide (k ∈ acc) then acc else acc ++ [k]) ks acc.

Definition first_seen (ks : list pystr) : list pystr := first_seen_from [] ks.

(** No slot holds a number equal to zero. *)
Definition no_zero_slot (st : merge_state) : Prop :=
  ∀ k p x, parts st !! k = Some p -> Some x ∈ qtys p -> num_is_zero x = false.

(** The keys of [initial_order] are distinct and are the keys of [parts]. *)
Definition order_lists_parts (st : merge_state) : Prop :=
  NoDup (initial_order st) ∧ ∀ k, k ∈ initial_order st <-> is_Some (parts st !! k).


(** *** The ordering phase of [write_combined_excel]

    [None] stands for the [KeyError] of [parts[key]] or [seg_by_name[name]]
    and for the [IndexError] of [seg[0]]. *)

(** [if current: segments.append(current)] *)
Definition close_segment (segments : list (list pystr)) (current : list pystr)
    : list (list pystr) :=
  match current with
  | [] => segments
  | _ => segments ++ [current]
  end.

(** The loop that cuts [initial_order] into segments, each starting at a
    level-1 key. *)
Fixpoint segment_keys (parts : gmap pystr MergedPart) (keys : list pystr)
    (segments : list (list pystr)) (current : list pystr) : option (list (list pystr)) :=
  match keys with
  | [] => Some (close_segment segments current)
  | key :: keys' =>
      p ← parts !! key;
      if (level (mp_entry p) =? 1)%nat
      then segment_keys parts keys' (close_segment segments current) [key]
      else segment_keys parts keys' segments (current ++ [key])
  end.

(** The loop that files the segments under the canonical part name of
    their first key: [seg_by_name] and [name_order]. *)
Fixpoint group_segments (parts : gmap pystr MergedPart) (segments : list (list pystr))
    (seg_by_name : gmap pystr (list (list pystr))) (name_order : list pystr)
    : option (gmap pystr (list (list pystr)) * list pystr) :=
  match segments with
  | [] => Some (seg_by_name, name_order)
  | seg :: segments' =>
      key ← head seg;
      p ← parts !! key;
      let name := part_name (mp_entry p) in
      let '(seg_by_name, name_order) :=
        match seg_by_name !! name with
        | Some _ => (seg_by_name, name_order)
        | None => (<[name := []]> seg_by_name, name_order ++ [name])
        end in
      segs ← seg_by_name !! name;
      group_segments parts segments' (<[name := segs ++ [seg]]> seg_by_name) name_order
  end.

(** The loop that writes [ordered_keys]. *)
Fixpoint flatten_groups (seg_by_name : gmap pystr (list (list pystr)))
    (name_order : list pystr) : option (list pystr) :=
  match name_order with
  | [] => Some []
  | name :: names =>
      segs ← seg_by_name !! name;
      rest ← flatten_groups seg_by_name names;
      Some (concat segs ++ rest)
  end.

(** [ordered_keys] from [parts] and [initial_order]. *)
Definition order_keys (parts : gmap pystr MergedPart) (initial_order : list pystr)
    : option (list pystr) :=
  segments ← segment_keys parts initial_order [] [];
  '(seg_by_name, name_order) ← group_segments parts segments ∅ [];
  flatten_groups seg_by_name name_order.

(** [max_lvl]: the largest level among the ordered keys, 1 when there is
    none. *)
Definition max_level (parts : gmap pystr MergedPart) (ordered_keys : list pystr)
    : option nat :=
  match ordered_keys with
  | [] => Some 1
  | _ => foldr (fun k acc => p ← parts !! k; m ← acc; Some (Nat.max (level (mp_entry p)) m))
               (Some 0) ordered_keys
  end.

(** A child entry, below level 1. *)
Definition child_entry (lvl : nat) (pn name : pystr) (q : option pynum) : BomEntry :=
  {| level := lvl; part_name := name; display_name := name;
     note := []; note_norm := []; part_number := pn; drawing_no := pn;
     change := u8 "0"; quantity := q; flag_multiline_en := false;
     flag_note_used := false |}.

(** Variant A: a bracket with a bolt, then a cover; variant B: a bracket
    with another note and the same bolt. *)
Definition example_hierarchy : list Sheet :=
  [one_sheet (u8 "A") [top_entry (u8 "PN-1") (u8 "Bracket") [] (Some (PyInt 1));
                       child_entry 2 (u8 "PN-9") (u8 "Bolt") (Some (PyInt 4));
                       top_entry (u8 "PN-2") (u8 "Cover") [] (Some (PyInt 1))];
   one_sheet (u8 "B") [top_entry (u8 "PN-1") (u8 "Bracket") (u8 "rh") (Some (PyInt 1));
                       child_entry 2 (u8 "PN-9") (u8 "Bolt") (Some (PyInt 6))]].

(** Every segment has a first key, and [parts] knows it. *)
Definition segments_headed (parts : gmap pystr MergedPart) (segments : list (list pystr))
    : Prop :=
  Forall (fun seg => ∃ k, head seg = Some k ∧ is_Some (parts !! k)) segments.

(** [name_order] has no repeats and holds the keys of [seg_by_name]. *)
Definition names_listed (seg_by_name : gmap pystr (list (list pystr)))
    (name_order : list pystr) : Prop :=
  NoDup name_order ∧ ∀ name, name ∈ name_order <-> is_Some (seg_by_name !! name).

(** ** The earlier generation, [multi.py]

    [multi.py] is the generation before [test.py]: no deletion marks, no
    notes, a quantity that is never absent, and a reconciler keyed by part
    number alone whose slots are overwritten. *)
Module Multi.

(** An entry of [multi.py]'s [parse_bom_pdf]. *)
Record Entry := {
  level : nat;
  part_name : pystr;
  part_number : pystr;
  drawing_no : pystr;
  change : pystr;
  quantity : pynum
}.

(** [try: qty = int(qt)], [except ValueError: try: qty = float(qt)],
    [except ValueError: qty = 0]. *)
Definition parse_quantity (ucd : UCD) (qt : pystr) : pynum :=
  match py_int ucd qt with
  | Some z => PyInt z
  | None =>
      match py_float ucd qt with
      | Some f => PyFloat f
      | None => PyInt 0
      end
  end.

(** A tuple of [sheets]: variant, entries, customer, product. *)
Record Sheet := {
  sheet_variant : pystr;
  sheet_ents : list Entry;
  sheet_cust : pystr;
  sheet_prod : pystr
}.

(** A value of [parts]: [{**r, 'qtys': ...}]. *)
Record Part := {
  mp_entry : Entry;
  qtys : list pynum
}.

Record merge_state := {
  parts : gmap pystr Part;
  order : list pystr
}.

(** [xs[i] = v] with [i >= 0]: [IndexError] out of range. *)
Definition py_setitem {A} (xs : list A) (i : nat) (v : A) : result (list A) :=
  if (i <? length xs)%nat then Ok (<[i := v]> xs) else Raise IndexError.

(** The body of the inner loop, with [n = len(sheets)]. *)
Definition sight (n vi : nat) (st : merge_state) (r : Entry) : result merge_state :=
  let pn := part_number r in
  let fresh := {| mp_entry := r; qtys := replicate n (PyInt 0) |} in
  let '(p, parts1, order1) :=
    match parts st !! pn with
    | Some p => (p, parts st, order st)
    | None => (fresh, <[pn := fresh]> (parts st), order st ++ [pn])
    end in
  qs ← py_setitem (qtys p) vi (quantity r);
  Ok {| parts := <[pn := {| mp_entry := mp_entry p; qtys := qs |}]> parts1;
        order := order1 |}.

(** [for vi, (_, ents, _, _) in enumerate(sheets): for r in ents: ...] *)
Fixpoint merge_sheets (n vi : nat) (sheets : list Sheet) (st : merge_state)
    : result merge_state :=
  match sheets with
  | [] => Ok st
  | sh :: sheets' =>
      st' ← for_each (sheet_ents sh) (sight n vi) st;
      merge_sheets n (S vi) sheets' st'
  end.

Definition build_parts (sheets : list Sheet) : result merge_state :=
  merge_sheets (length sheets) 0 sheets {| parts := ∅; order := [] |}.

(** The entries of the sheets in the order the loops visit them, each with
    the index of its variant. *)
Fixpoint sightings_from (vi : nat) (sheets : list Sheet) : list (nat * Entry) :=
  match sheets with
  | [] => []
  | sh :: sheets' => List.map (pair vi) (sheet_ents sh) ++ sightings_from (S vi) sheets'
  end.

Definition sight_at (n : nat) (st : merge_state) (s : nat * Entry) : result merge_state :=
  sight n s.1 st s.2.

(** Every quantity vector has [n] slots. *)
Definition vectors_sized (n : nat) (st : merge_state) : Prop :=
  ∀ pn p, parts st !! pn = Some p -> length (qtys p) = n.

Definition bolt (q : Z) : Entry :=
  {| level := 2; part_name := u8 "Bolt"; part_number := u8 "PN-9";
     drawing_no := u8 "PN-9"; change := u8 "0"; quantity := PyInt q |}.


End Multi.

(** * Properties *)

(** ** Lists and strings *)

Lemma drop_while_decomp {A} (p : A -> bool) (l : list A) :
  l = take_while p l ++ drop_while p l.
Proof.
  induction l as [|x l IH]; simpl; [done|].
  destruct (p x); simpl; [by f_equal | done].
Qed.

Lemma take_while_all {A} (p : A -> bool) (l : list A) :
  forallb p (take_while p l) = true.
Proof.
  induction l as [|x l IH]; simpl; [done|].
  destruct (p x) eqn:E; simpl; [by rewrite E | done].
Qed.

Lemma drop_while_head {A} (p : A -> bool) (l : list A) :
  from_option (fun x => negb (p x)) true (head (drop_while p l)) = true.
Proof.
  induction l as [|x l IH]; simpl; [done|].
  destruct (p x) eqn:E; simpl; [done | by rewrite E].
Qed.

Lemma take_while_app {A} (p : A -> bool) (l r : list A) :
  forallb p l = true ->
  from_option (fun x => negb (p x)) true (head r) = true ->
  take_while p (l ++ r) = l ∧ drop_while p (l ++ r) = r.
Proof.
  intros Hl Hr. induction l as [|x l IH]; simpl in *.
  - destruct r as [|y r]; simpl in *; [done|].
    destruct (p y); simpl in *; done.
  - apply andb_prop in Hl as [Hx Hl]. rewrite Hx.
    destruct (IH Hl) as [-> ->]. done.
Qed.

Lemma drop_while_id {A} (p : A -> bool) (l : list A) :
  from_option (fun x => negb (p x)) true (head l) = true -> drop_while p l = l.
Proof.
  destruct l as [|x l]; simpl; [done|]. by destruct (p x).
Qed.

(** ** Runs of digits *)

Section DigitRuns.
Context (ucd : UCD).

Lemma digit_runs_split cur s c t :
  is_digit ucd c = false ->
  digit_runs_from ucd cur (s ++ c :: t)
  = digit_runs_from ucd cur s ++ digit_runs_from ucd [] t.
Proof.
  intros Hc. revert cur. induction s as [|x s IH]; intros cur; simpl.
  - rewrite Hc. by destruct cur.
  - destruct (is_digit ucd x); [apply IH|].
    destruct cur; simpl; by rewrite IH.
Qed.

Lemma digit_runs_digits cur run post :
  forallb (is_digit ucd) run = true ->
  digit_runs_from ucd cur (run ++ post) = digit_runs_from ucd (rev run ++ cur) post.
Proof.
  revert cur. induction run as [|x run IH]; intros cur H; simpl in *; [done|].
  apply andb_prop in H as [Hx H]. rewrite Hx, IH by done.
  by rewrite <- app_assoc.
Qed.

Lemma digit_runs_no_digit cur post :
  forallb (fun c => negb (is_digit ucd c)) post = true ->
  digit_runs_from ucd cur post = flush cur.
Proof.
  revert cur. induction post as [|x post IH]; intros cur H; simpl in *; [done|].
  apply andb_prop in H as [Hx H]. apply negb_true_iff in Hx. rewrite Hx.
  destruct cur as [|c cur]; rewrite IH by done; done.
Qed.

Lemma findall_last_run s run :
  last_digit_run ucd s run -> last (re_findall_digits ucd s) = Some run.
Proof.
  intros (pre & post & -> & Hne & Hrun & Hpost & Hpre).
  unfold re_findall_digits.
  assert (Htail : ∀ cur, cur = [] ->
            digit_runs_from ucd cur (run ++ post) = [run]).
  { intros cur ->. rewrite digit_runs_digits, app_nil_r, digit_runs_no_digit by done.
    unfold flush. destruct (rev run) eqn:E.
    - apply (f_equal (@rev _)) in E. rewrite rev_involutive in E. done.
    - by rewrite <- E, rev_involutive. }
  destruct (decide (pre = [])) as [->|Hp].
  - simpl. by rewrite Htail.
  - destruct (exists_last Hp) as (pre' & c & ->).
    rewrite last_snoc in Hpre. simpl in Hpre. apply negb_true_iff in Hpre.
    rewrite <- app_assoc. simpl.
    rewrite digit_runs_split, Htail by done.
    by rewrite last_snoc.
Qed.

Lemma findall_no_digit s :
  forallb (fun c => negb (is_digit ucd c)) s = true -> re_findall_digits ucd s = [].
Proof. intros H. unfold re_findall_digits. by rewrite digit_runs_no_digit. Qed.

End DigitRuns.

(** ** Row normaliser *)

(** What an appended entry tells about its row. *)
Lemma normalize_row_emitted ucd cut deleted cmap (r : row) e :
  normalize_row ucd cut deleted cmap r = Ok (Some e) ->
  ∃ c0, r !! 0 = Some c0 ∧
        clean_cell c0 ≠ [] ∧
        re_match_item_index ucd (clean_cell c0) = true ∧
        (∀ n, parse_index_int ucd (clean_cell c0) = Some n -> n ∉ deleted) ∧
        part_name e = reconstruct_name ucd cut
                        (raw_lines (default (Some []) (r !! part_name_col cmap))) ∧
        part_name e ≠ [] ∧
        flag_multiline_en e = multiline_english cut
                        (raw_lines (default (Some []) (r !! part_name_col cmap))) ∧
        change e = revision_of ucd (mapped_cell r (col_change cmap)) ∧
        quantity e = parse_quantity ucd (mapped_cell r (col_quantity cmap)).
Proof.
  unfold normalize_row. destruct r as [|c0 r]; [discriminate|].
  cbn [py_index lookup list_lookup mbind result_bind].
  intros H. exists c0. split; [done|].
  destruct (bool_decide (clean_cell c0 = [])) eqn:E1; [discriminate|].
  destruct (re_match_item_index ucd (clean_cell c0)) eqn:E2; [|discriminate].
  cbn [negb orb] in H.
  apply bool_decide_eq_false in E1.
  destruct (parse_index_int ucd (clean_cell c0)) as [n|] eqn:E3.
  - destruct (bool_decide (n ∈ deleted)) eqn:E4; [discriminate|].
    apply bool_decide_eq_false in E4.
    repeat match type of H with
           | (if ?b then _ else _) = _ => destruct b eqn:?; [discriminate|]
           end.
    injection H as <-. cbn.
    repeat split; try done.
    + intros m [= <-]. done.
    + match goal with
      | Hp : bool_decide _ = false |- _ => apply bool_decide_eq_false in Hp; exact Hp
      end.
  - repeat match type of H with
           | (if ?b then _ else _) = _ => destruct b eqn:?; [discriminate|]
           end.
    injection H as <-. cbn.
    repeat split; try done.
    match goal with
    | Hp : bool_decide _ = false |- _ => apply bool_decide_eq_false in Hp; exact Hp
    end.
Qed.

(** C4, as stated, fails: for the lines ["部品名", "AS", "SY BRACKET"] and
    threshold 4 the reconstructed part name is not "Sy Bracket". *)
Lemma part_name_example_is_not_Sy_Bracket :
  raw_lines (Some (u8 "部品名" ++ 10%N :: u8 "AS" ++ 10%N :: u8 "SY BRACKET"))
    = example_name_lines
  ∧ reconstruct_name sample_ucd 4 example_name_lines ≠ u8 "Sy Bracket".
Proof. split; [vm_compute; reflexivity | vm_compute; discriminate]. Qed.

(** C4, amended: for a part-name cell whose non-empty lines are
    ["部品名", "AS", "SY BRACKET"], under threshold 4 (and under the
    module's own threshold 3), the filtering drops line 0 and drops "AS",
    leaving ["SY BRACKET"]; the part name is "SY Bracket", the all-upper-case
    word "SY" being no longer than the threshold and so kept as it is, and
    the multi-line flag is false. *)
Theorem part_name_example (ucd : UCD) :
  english_content 4 example_name_lines = [u8 "SY BRACKET"]
  ∧ reconstruct_name ucd 4 example_name_lines = u8 "SY Bracket"
  ∧ multiline_english 4 example_name_lines = false
  ∧ english_content CUT_THRESHOLD example_name_lines = [u8 "SY BRACKET"]
  ∧ reconstruct_name ucd CUT_THRESHOLD example_name_lines = u8 "SY Bracket"
  ∧ multiline_english CUT_THRESHOLD example_name_lines = false
  ∧ fmt 4 (u8 "SY") = u8 "SY".
Proof. repeat split; vm_compute; reflexivity. Qed.

(** Row normalisation raises for an empty row only. *)
Lemma normalize_row_total ucd cut deleted cmap (r : row) :
  r ≠ [] -> ∃ o, normalize_row ucd cut deleted cmap r = Ok o.
Proof.
  intros Hr. unfold normalize_row. destruct r as [|c0 r]; [done|].
  cbn [py_index lookup list_lookup mbind result_bind].
  repeat match goal with
         | |- ∃ o, (if ?b then _ else _) = _ => destruct b
         end; eauto.
Qed.

(** C5: the quantity of an entry is its quantity cell read as an integer,
    else as a float, else absent, a blank cell being absent; "2" gives 2,
    the empty text and "N/A" give absent; and whatever the quantity cell
    holds, normalising a row with at least one cell raises nothing. *)
Theorem quantity_int_else_float_else_absent
    (ucd : UCD) (cut : nat) (deleted : gset Z) (cmap : ColumnMap) (r : row) :
  r ≠ [] ->
  (∃ o, normalize_row ucd cut deleted cmap r = Ok o ∧
        ∀ e, o = Some e ->
             let qt := mapped_cell r (col_quantity cmap) in
             (qt = [] -> quantity e = None) ∧
             (∀ z, qt ≠ [] -> py_int ucd qt = Some z -> quantity e = Some (PyInt z)) ∧
             (∀ f, qt ≠ [] -> py_int ucd qt = None -> py_float ucd qt = Some f ->
                   quantity e = Some (PyFloat f)) ∧
             (py_int ucd qt = None -> py_float ucd qt = None -> quantity e = None))
  ∧ parse_quantity ucd (u8 "2") = Some (PyInt 2)
  ∧ parse_quantity ucd [] = None
  ∧ parse_quantity ucd (u8 "N/A") = None.
Proof.
  intros Hr. split; [|repeat split; vm_compute; reflexivity].
  destruct (normalize_row_total ucd cut deleted cmap r Hr) as [o Ho].
  exists o. split; [done|]. intros e ->.
  apply normalize_row_emitted in Ho as (_ & _ & _ & _ & _ & _ & _ & _ & _ & Hq).
  cbn zeta. rewrite Hq. unfold parse_quantity.
  destruct (mapped_cell r (col_quantity cmap)) as [|c qt] eqn:E.
  - repeat split; try done.
  - repeat split; try done.
    + intros z _ ->. done.
    + intros f _ -> ->. done.
    + intros -> ->. done.
Qed.

Lemma quantity_int_else_float_else_absent_witness :
  example_row ≠ [] ∧
  ∃ e, normalize_row sample_ucd CUT_THRESHOLD ∅ example_cmap example_row = Ok (Some e)
       ∧ quantity e = Some (PyInt 2).
Proof.
  split; [discriminate|].
  destruct (quantity_int_else_float_else_absent sample_ucd CUT_THRESHOLD ∅
              example_cmap example_row ltac:(discriminate))
    as [(o & Ho & Hq) _].
  assert (Hrow : ∃ e, normalize_row sample_ucd CUT_THRESHOLD ∅ example_cmap example_row
                      = Ok (Some e)) by (vm_compute; eauto).
  destruct Hrow as [e He]. exists e. split; [done|].
  rewrite He in Ho. injection Ho as <-.
  destruct (Hq e eq_refl) as (_ & Hint & _).
  apply Hint; [vm_compute; discriminate | vm_compute; reflexivity].
Defined.

(** C7: the revision of an entry is the last run of decimal digits of the
    text of the mapped change column, and the string "0" when that text has
    no digit; "Rev 3 (was 2)" gives "2". *)
Theorem revision_is_last_digit_run
    (ucd : UCD) (cut : nat) (deleted : gset Z) (cmap : ColumnMap) (r : row) (e : BomEntry) :
  normalize_row ucd cut deleted cmap r = Ok (Some e) ->
  let raw_chg := mapped_cell r (col_change cmap) in
  (∀ run, last_digit_run ucd raw_chg run -> change e = run)
  ∧ (forallb (fun c => negb (is_digit ucd c)) raw_chg = true -> change e = u8 "0")
  ∧ revision_of ucd (u8 "Rev 3 (was 2)") = u8 "2".
Proof.
  intros He raw_chg.
  apply normalize_row_emitted in He as (_ & _ & _ & _ & _ & _ & _ & _ & Hc & _).
  fold raw_chg in Hc. rewrite Hc. unfold revision_of.
  split; [|split].
  - intros run Hrun. by rewrite (findall_last_run ucd _ _ Hrun).
  - intros Hno. by rewrite findall_no_digit.
  - vm_compute. reflexivity.
Qed.

Lemma revision_is_last_digit_run_witness :
  ∃ e, normalize_row sample_ucd CUT_THRESHOLD ∅ example_cmap example_row = Ok (Some e)
       ∧ mapped_cell example_row (col_change example_cmap) = u8 "Rev 3 (was 2)"
       ∧ change e = u8 "2".
Proof.
  assert (Hrow : ∃ e, normalize_row sample_ucd CUT_THRESHOLD ∅ example_cmap example_row
                      = Ok (Some e)) by (vm_compute; eauto).
  destruct Hrow as [e He]. exists e. split; [done|]. split; [vm_compute; reflexivity|].
  apply (proj1 (revision_is_last_digit_run sample_ucd CUT_THRESHOLD ∅
                  example_cmap example_row e He)).
  exists (u8 "Rev 3 (was "), (u8 ")").
  repeat split; vm_compute; (reflexivity || discriminate).
Defined.

(** ** Table locator *)

Lemma find_index_first {A} (p : A -> bool) (l : list A) i x :
  l !! i = Some x -> p x = true ->
  (∀ j y, j < i -> l !! j = Some y -> p y = false) ->
  find_index p l = Some i.
Proof.
  revert i. induction l as [|a l IH]; intros i Hi Hx Hbefore; [done|].
  destruct i as [|i]; simpl in *.
  - injection Hi as ->. by rewrite Hx.
  - rewrite (Hbefore 0 a) by (done || lia).
    rewrite (IH i Hi Hx); [done|].
    intros j y Hj Hy. apply (Hbefore (S j) y); [lia | done].
Qed.

Lemma find_index_none {A} (p : A -> bool) (l : list A) :
  (∀ j y, l !! j = Some y -> p y = false) -> find_index p l = None.
Proof.
  induction l as [|a l IH]; intros H; simpl; [done|].
  rewrite (H 0 a) by done. rewrite IH; [done|].
  intros j y Hy. by apply (H (S j) y).
Qed.

Lemma existsb_elem_of {A} (p : A -> bool) (l : list A) :
  existsb p l = true ↔ ∃ x, x ∈ l ∧ p x = true.
Proof.
  rewrite existsb_exists. split; intros (x & Hx & Hp); exists x;
    (split; [by apply list_elem_of_In | done]).
Qed.

(** C8, as stated, fails: row 0 of [example_table_contains] is the first row
    of the table with a cell that starts with "level" and a cell that
    contains "part number", yet the header row chosen is the fallback
    row 2. *)
Lemma header_by_contained_part_number_refuted :
  find_index (spec_header_row sample_ucd) (take 6 example_table_contains) = Some 0
  ∧ locate_header sample_ucd example_table_contains = 2.
Proof. split; vm_compute; reflexivity. Qed.

(** C8, amended: for each page's first table, the header row is the first
    row among the table's first 6 rows that has both a cell whose cleaned,
    lower-cased text starts with "level" and a cell whose cleaned,
    lower-cased text starts with "part number"; if there is no such row
    among the first 6, row index 2 is used; and the data rows are exactly
    the rows strictly after the chosen header row. *)
Theorem header_row_located (ucd : UCD) (tbl : table) :
  (∀ r, is_header_row ucd r = true ↔
        (∃ c, c ∈ r ∧ startswith (u8 "level") (py_lower ucd (clean_cell c)) = true) ∧
        (∃ c, c ∈ r ∧ startswith (u8 "part number") (py_lower ucd (clean_cell c)) = true))
  ∧ (∀ i r, tbl !! i = Some r -> i < 6 -> is_header_row ucd r = true ->
            (∀ j r', j < i -> tbl !! j = Some r' -> is_header_row ucd r' = false) ->
            locate_header ucd tbl = i)
  ∧ ((∀ j r', j < 6 -> tbl !! j = Some r' -> is_header_row ucd r' = false) ->
     locate_header ucd tbl = 2)
  ∧ (∀ cut page entries others deleted hdr,
       extract_tables page = tbl :: others ->
       get_deleted_indices ucd page = Ok deleted ->
       tbl !! locate_header ucd tbl = Some hdr ->
       parse_page ucd cut entries page
       = parse_rows ucd cut deleted (map_columns ucd hdr)
           (drop (locate_header ucd tbl + 1) tbl) entries).
Proof.
  split; [|split; [|split]].
  - intros r. unfold is_header_row.
    rewrite andb_true_iff, !existsb_elem_of. done.
  - intros i r Hi Hlt Hr Hbefore. unfold locate_header.
    rewrite (find_index_first _ _ i r); [done| |done|].
    + by rewrite lookup_take_lt.
    + intros j y Hj Hy. rewrite lookup_take_lt in Hy by lia. eauto.
  - intros Hnone. unfold locate_header.
    rewrite find_index_none; [done|].
    intros j y Hy. destruct (decide (j < 6)) as [Hj|Hj].
    + rewrite lookup_take_lt in Hy by done. eauto.
    + rewrite lookup_take_ge in Hy by lia. done.
  - intros cut page entries others deleted hdr Ht Hd Hh.
    unfold parse_page. rewrite Hd, Ht. cbn [mbind result_bind].
    unfold py_index. rewrite Hh. done.
Qed.

Lemma header_row_located_witness :
  locate_header sample_ucd example_table = 1
  ∧ drop (locate_header sample_ucd example_table + 1) example_table
    = [[Some (u8 "1"); Some (u8 "PN-1"); Some (u8 "2")];
       [Some (u8 "2"); Some (u8 "PN-2"); Some (u8 "1")]].
Proof.
  assert (H : locate_header sample_ucd example_table = 1).
  { apply (proj1 (proj2 (header_row_located sample_ucd example_table)) 1
             [Some (u8 "Level"); Some (u8 "Part Number"); Some (u8 "Qty")]).
    - reflexivity.
    - lia.
    - vm_compute. reflexivity.
    - intros j r' Hj Hr'. assert (j = 0) as -> by lia.
      injection Hr' as <-. vm_compute. reflexivity. }
  split; [exact H|]. rewrite H. reflexivity.
Defined.

(** ** Metadata extractor *)

Lemma scan_metadata_skip ucd prev before rest :
  forallb (fun l => negb (is_anchor_line ucd l)) before = true ->
  scan_metadata ucd prev (before ++ rest)
  = scan_metadata ucd (match last before with Some p => Some p | None => prev end) rest.
Proof.
  revert prev. induction before as [|l before IH]; intros prev H; simpl in *; [done|].
  apply andb_prop in H as [Hl H]. apply negb_true_iff in Hl. rewrite Hl.
  rewrite IH by done. destruct before as [|l0 before]; [done|].
  rewrite last_cons_cons.
  destruct (last (l0 :: before)) eqn:E; [done|].
  by apply last_None in E.
Qed.

(** C10: the metadata extractor commits to the first line whose upper-cased
    form starts with "PRODUCT NUMBER" and contains "CUSTOMER"; when that
    line has no line before it, or the line before it has fewer than two
    whitespace-separated tokens, both identifiers are empty, whatever
    follows, a later anchor line after a well-formed line included. *)
Theorem metadata_commits_to_first_anchor
    (ucd : UCD) (pages : list Page) (before : list pystr) (anchor : pystr)
    (after : list pystr) :
  metadata_lines pages = before ++ anchor :: after ->
  forallb (fun l => negb (is_anchor_line ucd l)) before = true ->
  is_anchor_line ucd anchor = true ->
  (before = [] ∨ ∃ p, last before = Some p ∧ length (py_split p) < 2) ->
  parse_pdf_metadata ucd pages = ([], []).
Proof.
  intros Hlines Hbefore Hanchor Hprev. unfold parse_pdf_metadata.
  rewrite Hlines, scan_metadata_skip by done. simpl. rewrite Hanchor.
  destruct Hprev as [->|(p & -> & Hp)]; [done|].
  destruct (py_split p) as [|p0 [|p1 ps]]; simpl in *; [done|done|lia].
Qed.

Lemma metadata_commits_to_first_anchor_witness :
  metadata_lines example_metadata_pages
    = [u8 "Product Number / Customer"; u8 "P-100 C-200"; u8 "PRODUCT NUMBER  CUSTOMER"]
  ∧ is_anchor_line sample_ucd (u8 "PRODUCT NUMBER  CUSTOMER") = true
  ∧ parse_pdf_metadata sample_ucd example_metadata_pages = ([], []).
Proof.
  split; [vm_compute; reflexivity|]. split; [vm_compute; reflexivity|].
  apply (metadata_commits_to_first_anchor sample_ucd example_metadata_pages []
           (u8 "Product Number / Customer")
           [u8 "P-100 C-200"; u8 "PRODUCT NUMBER  CUSTOMER"]).
  - vm_compute. reflexivity.
  - reflexivity.
  - vm_compute. reflexivity.
  - left. reflexivity.
Defined.

(** ** Stripping *)

Lemma drop_while_elem {A} (p : A -> bool) (l : list A) x :
  In x (drop_while p l) -> In x l.
Proof.
  intros H. rewrite (drop_while_decomp p l). apply in_or_app. by right.
Qed.

Lemma strip_chars_elem p s x : In x (strip_chars p s) -> In x s.
Proof.
  unfold strip_chars. intros H. apply in_rev in H.
  apply drop_while_elem in H. apply in_rev in H.
  by apply drop_while_elem in H.
Qed.

Lemma strip_chars_head p s :
  from_option (fun x => negb (p x)) true (head (strip_chars p s)) = true.
Proof.
  unfold strip_chars. set (u := drop_while p s).
  pose proof (drop_while_head p s) as Hu. fold u in Hu.
  pose proof (drop_while_decomp p (rev u)) as Hd.
  destruct (drop_while p (rev u)) as [|y d] eqn:E; [done|].
  apply (f_equal (@rev _)) in Hd. rewrite rev_involutive, rev_app_distr in Hd.
  rewrite Hd in Hu. simpl in *.
  destruct (rev d ++ [y]) eqn:E'; [by destruct (rev d)|]. done.
Qed.

Lemma strip_chars_last p s :
  from_option (fun x => negb (p x)) true (head (rev (strip_chars p s))) = true.
Proof. unfold strip_chars. rewrite rev_involutive. apply drop_while_head. Qed.

Lemma strip_chars_idem p s : strip_chars p (strip_chars p s) = strip_chars p s.
Proof.
  pose proof (strip_chars_head p s) as Hh. pose proof (strip_chars_last p s) as Hl.
  set (t := strip_chars p s) in *. unfold strip_chars at 1.
  rewrite (drop_while_id p t) by done.
  rewrite (drop_while_id p (rev t)) by done.
  apply rev_involutive.
Qed.

Lemma strip_chars_none p (s : pystr) :
  (∀ x, In x s -> p x = false) -> strip_chars p s = s.
Proof.
  intros H. unfold strip_chars.
  assert (Hid : ∀ l : pystr, (∀ x, In x l -> p x = false) -> drop_while p l = l).
  { intros [|y l] Hl; simpl; [done|]. by rewrite (Hl y) by (by left). }
  rewrite (Hid s H). rewrite Hid; [apply rev_involutive|].
  intros x Hx. apply H. by apply in_rev.
Qed.

Lemma clean_cell_stripped c : py_strip (clean_cell c) = clean_cell c.
Proof.
  destruct c as [s|]; [|reflexivity].
  unfold clean_cell, py_strip. apply strip_chars_idem.
Qed.

Lemma clean_cell_no_newline c : ¬ In 10%N (clean_cell c).
Proof.
  destruct c as [s|]; simpl; [|tauto]. intros H.
  apply strip_chars_elem in H. unfold py_replace_char in H.
  apply in_map_iff in H as (x & Hx & _).
  destruct (x =? 10)%N eqn:E; [done|]. apply N.eqb_neq in E. done.
Qed.

(** ** Item indices *)

Section ItemIndex.
Context (ucd : UCD).

Lemma at_dollar_end r : at_dollar r = true -> ¬ In 10%N r -> r = [].
Proof.
  destruct r as [|c [|c' r]]; simpl; intros H Hn; [done| |done].
  apply N.eqb_eq in H. tauto.
Qed.

Lemma item_index_dotted s :
  re_match_item_index ucd s = true -> ¬ In 10%N s -> dotted_decimal ucd s.
Proof.
  unfold re_match_item_index. intros H Hn.
  pose proof (drop_while_decomp (is_digit ucd) s) as Hs.
  pose proof (take_while_all (is_digit ucd) s) as Hd1.
  set (d1 := take_while (is_digit ucd) s) in *.
  set (r1 := drop_while (is_digit ucd) s) in *.
  apply andb_prop in H as [Hne H].
  apply negb_true_iff, bool_decide_eq_false in Hne.
  exists d1. split; [done|]. split; [done|].
  apply orb_prop in H as [H|H].
  - left. rewrite (at_dollar_end r1 H), app_nil_r in Hs; [done|].
    intros Hi. apply Hn. rewrite Hs. apply in_or_app. by right.
  - right. destruct r1 as [|c r]; [done|].
    apply andb_prop in H as [H Hend]. apply andb_prop in H as [Hc Hne2].
    apply N.eqb_eq in Hc. subst c.
    apply negb_true_iff, bool_decide_eq_false in Hne2.
    pose proof (drop_while_decomp (is_digit ucd) r) as Hr.
    exists (take_while (is_digit ucd) r).
    split; [done|]. split; [apply take_while_all|].
    rewrite (at_dollar_end _ Hend), app_nil_r in Hr.
    + by rewrite <- Hr.
    + intros Hi. apply Hn. rewrite Hs. apply in_or_app. right. right.
      by apply drop_while_elem in Hi.
Qed.

Lemma decimal_value_to_ascii c d :
  decimal_value ucd c = Some d ->
  (d < 10)%N ∧
  (if (c <? 127)%N then Some c
   else if is_space c then Some 32%N
   else (fun d => 48 + d)%N <$> decimal_value ucd c) = Some (48 + d)%N.
Proof.
  unfold decimal_value, is_ascii, ascii_is_digit. intros H.
  destruct (N.ltb_spec c 128) as [Hc|Hc].
  - destruct (N.leb_spec 48 c) as [H1|H1]; [|done].
    destruct (N.leb_spec c 57) as [H2|H2]; [|done].
    simpl in H. injection H as <-.
    destruct (N.ltb_spec c 127); [|lia].
    split; [lia|]. f_equal. lia.
  - destruct (N.ltb_spec c 127); [lia|].
    destruct (is_space c); [done|].
    destruct (ucd_decimal ucd c) as [d'|]; [|done].
    destruct (N.ltb_spec d' 10); [|done].
    injection H as <-. done.
Qed.

Lemma to_ascii_number_digits ds :
  forallb (is_digit ucd) ds = true ->
  to_ascii_number ucd ds
  = Some (List.map (fun c => 48 + default 0 (decimal_value ucd c))%N ds).
Proof.
  induction ds as [|c ds IH]; intros H; simpl in *; [done|].
  apply andb_prop in H as [Hc H]. unfold is_digit in Hc.
  pose proof (decimal_value_to_ascii c) as Hto.
  destruct (decimal_value ucd c) as [d|]; [|done].
  destruct (Hto d eq_refl) as [_ ->].
  rewrite (IH H). done.
Qed.

Lemma ascii_digit_image c :
  is_digit ucd c = true ->
  ascii_is_digit (48 + default 0 (decimal_value ucd c))%N = true.
Proof.
  unfold is_digit. destruct (decimal_value ucd c) as [d|] eqn:E; [|done].
  intros _. destruct (decimal_value_to_ascii c d E) as [Hd _].
  unfold ascii_is_digit. simpl.
  apply andb_true_intro. split; apply N.leb_le; lia.
Qed.

Lemma strip_underscores_digits prev (l : pystr) :
  forallb ascii_is_digit l = true -> prev ≠ Some 95%N ->
  strip_underscores prev l = Some l.
Proof.
  revert prev. induction l as [|c l IH]; intros prev H Hp; simpl in *.
  - by rewrite bool_decide_eq_false_2.
  - apply andb_prop in H as [Hc H]. rewrite Hc.
    assert (c ≠ 95%N) as Hne.
    { unfold ascii_is_digit in Hc. apply andb_prop in Hc as [_ Hc].
      apply N.leb_le in Hc. lia. }
    rewrite (proj2 (N.eqb_neq c 95) Hne).
    rewrite andb_false_r. rewrite IH; [done|done|]. congruence.
Qed.

Lemma digits_to_Z_image ds acc :
  fold_left (fun acc c => (10 * acc + Z.of_N (c - 48))%Z)
            (List.map (fun c => 48 + default 0 (decimal_value ucd c))%N ds) acc
  = fold_left (fun acc c => (10 * acc + Z.of_N (default 0%N (decimal_value ucd c)))%Z)
              ds acc.
Proof.
  revert acc. induction ds as [|c ds IH]; intros acc; simpl; [done|].
  rewrite IH. do 3 f_equal. lia.
Qed.

(** [int] of a non-empty string of digits is the number it denotes. *)
Lemma py_int_digits ds :
  ds ≠ [] -> forallb (is_digit ucd) ds = true ->
  py_int ucd ds = Some (digits_value ucd ds).
Proof.
  intros Hne Hds. unfold py_int. rewrite to_ascii_number_digits by done.
  cbn [mbind option_bind].
  set (asc := List.map _ ds).
  assert (Hasc : forallb ascii_is_digit asc = true).
  { subst asc. rewrite forallb_forall. intros x Hx.
    apply in_map_iff in Hx as (c & <- & Hc).
    apply ascii_digit_image. rewrite forallb_forall in Hds. by apply Hds. }
  assert (Hnil : asc ≠ []) by (subst asc; by destruct ds).
  rewrite strip_chars_none.
  2:{ intros x Hx. rewrite forallb_forall in Hasc. specialize (Hasc x Hx).
      unfold ascii_is_digit in Hasc. apply andb_prop in Hasc as [H1 H2].
      apply N.leb_le in H1, H2. unfold c_isspace.
      destruct (N.leb_spec 9 x), (N.leb_spec x 13), (N.eqb_spec x 32); simpl; lia. }
  assert (Hsign : split_sign asc = (false, asc)).
  { destruct asc as [|x asc']; [done|]. simpl in Hasc.
    apply andb_prop in Hasc as [Hx _]. unfold ascii_is_digit in Hx.
    apply andb_prop in Hx as [H1 H2]. apply N.leb_le in H1, H2.
    unfold split_sign.
    destruct (N.eqb_spec x 45); [lia|]. destruct (N.eqb_spec x 43); [lia|]. done. }
  rewrite Hsign. rewrite strip_underscores_digits by done.
  cbn [mbind option_bind]. rewrite Hasc.
  rewrite bool_decide_eq_false_2 by done. cbn [negb andb].
  f_equal. unfold digits_to_Z, digits_value. subst asc. apply digits_to_Z_image.
Qed.


End ItemIndex.

(** ** Where the entries of a document come from *)

Section Provenance.
Context (ucd : UCD) (cut : nat).

Lemma parse_rows_provenance deleted cmap rows entries es :
  parse_rows ucd cut deleted cmap rows entries = Ok es ->
  ∃ new, es = entries ++ new ∧
         ∀ e, e ∈ new ->
              ∃ r, r ∈ rows ∧ normalize_row ucd cut deleted cmap r = Ok (Some e).
Proof.
  unfold parse_rows. revert entries.
  induction rows as [|r rows IH]; intros entries H; simpl in H.
  - injection H as <-. exists []. split; [by rewrite app_nil_r|].
    intros e He. by apply elem_of_nil in He.
  - destruct (normalize_row ucd cut deleted cmap r) as [o|] eqn:E; [|done].
    cbn [mbind result_bind] in H. apply IH in H as (new & -> & Hnew).
    destruct o as [e0|].
    + exists (e0 :: new). split; [by rewrite <- app_assoc|].
      intros e He. apply elem_of_cons in He as [->|He].
      * exists r. split; [left|done].
      * destruct (Hnew e He) as (r' & Hr' & Hn). exists r'. split; [by right|done].
    + exists new. split; [done|].
      intros e He. destruct (Hnew e He) as (r' & Hr' & Hn).
      exists r'. split; [by right|done].
Qed.

Lemma parse_page_provenance entries page es :
  parse_page ucd cut entries page = Ok es ->
  ∃ new, es = entries ++ new ∧ ∀ e, e ∈ new -> ∃ r, emits ucd cut page r e.
Proof.
  unfold parse_page. intros H.
  destruct (get_deleted_indices ucd page) as [deleted|] eqn:Ed; [|done].
  cbn [mbind result_bind] in H.
  destruct (extract_tables page) as [|tbl others] eqn:Et.
  - injection H as <-. exists []. split; [by rewrite app_nil_r|].
    intros e He. by apply elem_of_nil in He.
  - unfold py_index in H.
    destruct (tbl !! locate_header ucd tbl) as [hdr|] eqn:Eh; [|done].
    cbn [mbind result_bind] in H.
    apply parse_rows_provenance in H as (new & -> & Hnew).
    exists new. split; [done|]. intros e He.
    destruct (Hnew e He) as (r & Hr & Hn).
    exists r, deleted, tbl, others, hdr. done.
Qed.

Lemma parse_pages_provenance pages entries es :
  for_each pages (parse_page ucd cut) entries = Ok es ->
  ∃ new, es = entries ++ new ∧
         ∀ e, e ∈ new -> ∃ page r, page ∈ pages ∧ emits ucd cut page r e.
Proof.
  revert entries. induction pages as [|page pages IH]; intros entries H; simpl in H.
  - injection H as <-. exists []. split; [by rewrite app_nil_r|].
    intros e He. by apply elem_of_nil in He.
  - destruct (parse_page ucd cut entries page) as [es1|] eqn:E; [|done].
    cbn [mbind result_bind] in H.
    apply parse_page_provenance in E as (new1 & -> & Hnew1).
    apply IH in H as (new2 & -> & Hnew2).
    exists (new1 ++ new2). split; [by rewrite <- app_assoc|].
    intros e He. apply elem_of_app in He as [He|He].
    + destruct (Hnew1 e He) as (r & Hr). exists page, r. split; [left|done].
    + destruct (Hnew2 e He) as (page' & r & Hp & Hr).
      exists page', r. split; [by right|done].
Qed.

End Provenance.

(** C6: an entry the row normaliser emits comes from a row whose cleaned
    first cell is not empty and is one or two groups of digits, two being
    joined by a dot; so a row whose item-index cell is empty or of another
    form yields no entry, and every entry of a parsed document has such a
    row of one of its pages as its origin. *)
Theorem emitted_entries_have_item_index (ucd : UCD) (cut : nat) :
  (∀ deleted cmap (r : row) e,
     normalize_row ucd cut deleted cmap r = Ok (Some e) ->
     ∃ c0, r !! 0 = Some c0 ∧ clean_cell c0 ≠ [] ∧ dotted_decimal ucd (clean_cell c0))
  ∧ (∀ deleted cmap (r : row) c0,
       r !! 0 = Some c0 ->
       clean_cell c0 = [] ∨ ¬ dotted_decimal ucd (clean_cell c0) ->
       ∀ e, normalize_row ucd cut deleted cmap r ≠ Ok (Some e))
  ∧ (∀ pages es e,
       parse_pages ucd cut pages = Ok es -> e ∈ es ->
       ∃ page r c0, page ∈ pages ∧ emits ucd cut page r e ∧
                    r !! 0 = Some c0 ∧ clean_cell c0 ≠ [] ∧
                    dotted_decimal ucd (clean_cell c0)).
Proof.
  assert (Hrow : ∀ deleted cmap (r : row) e,
            normalize_row ucd cut deleted cmap r = Ok (Some e) ->
            ∃ c0, r !! 0 = Some c0 ∧ clean_cell c0 ≠ [] ∧
                  dotted_decimal ucd (clean_cell c0)).
  { intros deleted cmap r e H.
    apply normalize_row_emitted in H as (c0 & H0 & Hne & Hm & _).
    exists c0. split; [done|]. split; [done|].
    apply item_index_dotted; [done | apply clean_cell_no_newline]. }
  split; [exact Hrow|]. split.
  - intros deleted cmap r c0 H0 Hbad e He.
    apply Hrow in He as (c0' & H0' & Hne & Hd).
    rewrite H0 in H0'. injection H0' as <-. tauto.
  - intros pages es e Hp He. unfold parse_pages in Hp.
    apply parse_pages_provenance in Hp as (new & -> & Hnew).
    rewrite app_nil_l in He.
    destruct (Hnew e He) as (page & r & Hpage & Hemit).
    pose proof Hemit as (deleted & tbl & others & hdr & _ & _ & _ & _ & Hn).
    apply Hrow in Hn as (c0 & H0 & Hne & Hd).
    exists page, r, c0. done.
Qed.

Lemma emitted_entries_have_item_index_witness :
  ∃ e1 e2,
    parse_bom_pdf sample_ucd [example_page] = Ok [e2]
    ∧ normalize_row sample_ucd CUT_THRESHOLD ∅ example_cmap example_row = Ok (Some e1)
    ∧ dotted_decimal sample_ucd (u8 "12.3").
Proof.
  assert (H1 : ∃ e1, normalize_row sample_ucd CUT_THRESHOLD ∅ example_cmap example_row
                     = Ok (Some e1)) by (vm_compute; eauto).
  assert (H2 : ∃ e2, parse_bom_pdf sample_ucd [example_page] = Ok [e2])
    by (vm_compute; eauto).
  destruct H1 as [e1 H1], H2 as [e2 H2]. exists e1, e2.
  split; [done|]. split; [done|].
  destruct (proj1 (emitted_entries_have_item_index sample_ucd CUT_THRESHOLD)
              ∅ example_cmap example_row e1 H1) as (c0 & H0 & _ & Hd).
  injection H0 as <-. exact Hd.
Defined.



(** ** Reconciler *)

Lemma for_each_app {A S} (xs ys : list A) (body : S -> A -> result S) (s : S) :
  for_each (xs ++ ys) body s = s' ← for_each xs body s; for_each ys body s'.
Proof.
  revert s. induction xs as [|x xs IH]; intros s; simpl; [done|].
  destruct (body s x); simpl; [apply IH | done].
Qed.

(** What one iteration of the loop does to the state. *)
Lemma sight_inv n vi st r st' :
  sight n vi st r = Ok st' ->
  let key := make_key r vi (seq_counter st) in
  let fresh := {| mp_entry := r; qtys := replicate n None |} in
  let p := default fresh (parts st !! key) in
  let parts1 := match parts st !! key with
                | Some _ => parts st
                | None => <[key := fresh]> (parts st)
                end in
  ∃ existing slot,
    qtys p !! vi = Some existing ∧
    accumulate existing (quantity r) = Ok slot ∧
    parts1 !! key = Some p ∧
    parts st' = match quantity r with
                | None => parts1
                | Some _ => <[key := {| mp_entry := mp_entry p;
                                        qtys := <[vi := slot]> (qtys p) |}]> parts1
                end ∧
    seq_counter st' = S (seq_counter st).
Proof.
  intros H. cbv zeta. unfold sight in H.
  set (key := make_key r vi (seq_counter st)) in *.
  set (fresh := {| mp_entry := r; qtys := replicate n None |}) in *.
  destruct (parts st !! key) as [p0|] eqn:E; cbn [default from_option id] in *;
    unfold py_index in H.
  - destruct (qtys p0 !! vi) as [existing|] eqn:Ee; [|done].
    cbn [mbind result_bind] in H.
    destruct (accumulate existing (quantity r)) as [slot|] eqn:Ea; [|done].
    cbn [mbind result_bind] in H. injection H as <-.
    exists existing, slot. done.
  - destruct (qtys fresh !! vi) as [existing|] eqn:Ee; [|done].
    cbn [mbind result_bind] in H.
    destruct (accumulate existing (quantity r)) as [slot|] eqn:Ea; [|done].
    cbn [mbind result_bind] in H. injection H as <-.
    exists existing, slot. repeat split; try done.
    by rewrite lookup_insert_eq.
Qed.

Lemma sight_slot n vi st r st' k v :
  sight n vi st r = Ok st' ->
  running_total
    (if bool_decide (make_key r vi (seq_counter st) = k) && (vi =? v)%nat
     then [quantity r] else [])
    (slot_of st k v) = Ok (slot_of st' k v).
Proof.
  intros H. apply sight_inv in H as (existing & slot & He & Ha & H1 & Hparts & _).
  cbn zeta in *.
  set (key := make_key r vi (seq_counter st)) in *.
  set (fresh := {| mp_entry := r; qtys := replicate n None |}) in *.
  set (p := default fresh (parts st !! key)) in *.
  assert (Hold : k = key -> slot_of st k v = default None (qtys p !! v)).
  { intros ->. unfold slot_of. subst p. destruct (parts st !! key); simpl; [done|].
    destruct (replicate n None !! v) eqn:E; [|done].
    by apply lookup_replicate_1 in E as [-> _]. }
  assert (Hother : k ≠ key -> slot_of st' k v = slot_of st k v).
  { intros Hne. unfold slot_of. rewrite Hparts.
    destruct (quantity r); [rewrite lookup_insert_ne by done|];
      (destruct (parts st !! key); [done | by rewrite lookup_insert_ne by done]). }
  destruct (decide (key = k)) as [<-|Hne].
  - rewrite bool_decide_eq_true_2 by done. cbn [andb].
    rewrite (Hold eq_refl).
    assert (Hnew : slot_of st' key v
                   = match quantity r with
                     | None => default None (qtys p !! v)
                     | Some _ => default None (<[vi := slot]> (qtys p) !! v)
                     end).
    { unfold slot_of. rewrite Hparts. destruct (quantity r).
      - by rewrite lookup_insert_eq.
      - by rewrite H1. }
    rewrite Hnew. destruct (Nat.eqb_spec vi v) as [<-|Hv].
    + unfold running_total. cbn [for_each]. rewrite He.
      cbn [from_option id]. rewrite Ha.
      cbn [mbind result_bind]. f_equal.
      destruct (quantity r) eqn:Eq.
      * rewrite list_lookup_insert_eq; [done|]. by apply lookup_lt_Some in He.
      * simpl in Ha. injection Ha as <-. done.
    + unfold running_total. simpl. f_equal.
      destruct (quantity r); [|done]. by rewrite list_lookup_insert_ne.
  - rewrite bool_decide_eq_false_2 by done. simpl.
    unfold running_total. simpl. f_equal. symmetry. apply Hother. congruence.
Qed.

Lemma sight_sized n vi st r st' :
  sight n vi st r = Ok st' -> vectors_sized n st -> vectors_sized n st'.
Proof.
  intros H Hwf. apply sight_inv in H as (existing & slot & He & Ha & H1 & Hparts & _).
  cbn zeta in *.
  set (key := make_key r vi (seq_counter st)) in *.
  set (fresh := {| mp_entry := r; qtys := replicate n None |}) in *.
  set (p := default fresh (parts st !! key)) in *.
  assert (Hp : length (qtys p) = n).
  { subst p. destruct (parts st !! key) eqn:E; simpl; [by apply (Hwf key)|].
    apply length_replicate. }
  assert (H1sized : ∀ k q, match parts st !! key with
                           | Some _ => parts st
                           | None => <[key := fresh]> (parts st)
                           end !! k = Some q -> length (qtys q) = n).
  { intros k q Hq. destruct (decide (k = key)) as [->|Hne].
    - rewrite H1 in Hq. by injection Hq as <-.
    - destruct (parts st !! key); [by apply (Hwf k)|].
      rewrite lookup_insert_ne in Hq by done. by apply (Hwf k). }
  intros k q Hq. rewrite Hparts in Hq. destruct (quantity r); [|by apply (H1sized k)].
  destruct (decide (k = key)) as [->|Hne].
  - rewrite lookup_insert_eq in Hq. injection Hq as <-. simpl.
    by rewrite length_insert.
  - rewrite lookup_insert_ne in Hq by done. by apply (H1sized k).
Qed.

Lemma sight_keeps n vi st r st' k :
  sight n vi st r = Ok st' ->
  (is_Some (parts st !! k) ∨ k = make_key r vi (seq_counter st)) ->
  is_Some (parts st' !! k).
Proof.
  intros H Hk. apply sight_inv in H as (existing & slot & He & Ha & H1 & Hparts & _).
  cbn zeta in *.
  set (key := make_key r vi (seq_counter st)) in *.
  rewrite Hparts.
  assert (H1k : is_Some (match parts st !! key with
                         | Some _ => parts st
                         | None => <[key := {| mp_entry := r;
                                               qtys := replicate n None |}]> (parts st)
                         end !! k)).
  { destruct (decide (k = key)) as [->|Hne]; [by rewrite H1|].
    destruct Hk as [Hk|Hk]; [|done].
    destruct (parts st !! key); [done | by rewrite lookup_insert_ne]. }
  destruct (quantity r); [|done].
  destruct (decide (k = key)) as [->|Hne].
  - by rewrite lookup_insert_eq.
  - by rewrite lookup_insert_ne.
Qed.

Lemma sight_seq n vi st r st' :
  sight n vi st r = Ok st' -> seq_counter st' = S (seq_counter st).
Proof. intros H. by apply sight_inv in H as (? & ? & _ & _ & _ & _ & ?). Qed.

Lemma running_total_app qs1 qs2 slot :
  running_total (qs1 ++ qs2) slot
  = slot' ← running_total qs1 slot; running_total qs2 slot'.
Proof. apply for_each_app. Qed.

Lemma sighted_quantities_app ss1 ss2 k v :
  sighted_quantities (ss1 ++ ss2) k v
  = sighted_quantities ss1 k v ++ sighted_quantities ss2 k v.
Proof. unfold sighted_quantities. by rewrite List.filter_app, List.map_app. Qed.

Lemma sighted_quantities_cons key vi r ss k v :
  sighted_quantities ((key, vi, r) :: ss) k v
  = (if bool_decide (key = k) && (vi =? v)%nat then [quantity r] else [])
    ++ sighted_quantities ss k v.
Proof.
  unfold sighted_quantities. simpl.
  by destruct (bool_decide (key = k) && (vi =? v)%nat).
Qed.

(** The inner loop over the entries of one variant. *)
Lemma sight_entries_inv n vi ents st st' :
  for_each ents (sight n vi) st = Ok st' ->
  seq_counter st' = seq_counter st + length ents
  ∧ (vectors_sized n st -> vectors_sized n st')
  ∧ (∀ k, is_Some (parts st !! k) -> is_Some (parts st' !! k))
  ∧ (∀ s, s ∈ sightings_of vi (seq_counter st) ents -> is_Some (parts st' !! s.1.1))
  ∧ (∀ k v, running_total
              (sighted_quantities (sightings_of vi (seq_counter st) ents) k v)
              (slot_of st k v) = Ok (slot_of st' k v)).
Proof.
  revert st. induction ents as [|r ents IH]; intros st H; simpl in H.
  - injection H as <-. simpl. split; [lia|]. split; [done|]. split; [done|].
    split; [|done]. intros s Hs. by apply elem_of_nil in Hs.
  - destruct (sight n vi st r) as [st1|] eqn:E; [|done].
    cbn [mbind result_bind] in H.
    destruct (IH st1 H) as (Hseq & Hsz & Hkeep & Hsight & Hslot).
    pose proof (sight_seq _ _ _ _ _ E) as Hs1. rewrite Hs1 in *.
    split; [simpl; lia|]. split; [|split; [|split]].
    + intros Hwf. apply Hsz. by apply (sight_sized _ _ _ _ _ E).
    + intros k Hk. apply Hkeep. apply (sight_keeps _ _ _ _ _ k E). by left.
    + intros s Hs. simpl in Hs. apply elem_of_cons in Hs as [->|Hs]; [|by apply Hsight].
      apply Hkeep. apply (sight_keeps _ _ _ _ _ _ E). by right.
    + intros k v. simpl. rewrite sighted_quantities_cons, running_total_app.
      rewrite (sight_slot _ _ _ _ _ k v E). cbn [mbind result_bind]. apply Hslot.
Qed.

(** The outer loop over the variants. *)
Lemma merge_sheets_inv n sheets vi st st' :
  merge_sheets n vi sheets st = Ok st' ->
  (vectors_sized n st -> vectors_sized n st')
  ∧ (∀ k, is_Some (parts st !! k) -> is_Some (parts st' !! k))
  ∧ (∀ s, s ∈ sightings_from vi (seq_counter st) sheets -> is_Some (parts st' !! s.1.1))
  ∧ (∀ k v, running_total
              (sighted_quantities (sightings_from vi (seq_counter st) sheets) k v)
              (slot_of st k v) = Ok (slot_of st' k v)).
Proof.
  revert vi st. induction sheets as [|sh sheets IH]; intros vi st H; simpl in H.
  - injection H as <-. simpl. split; [done|]. split; [done|].
    split; [|done]. intros s Hs. by apply elem_of_nil in Hs.
  - destruct (for_each (sheet_ents sh) (sight n vi) st) as [st1|] eqn:E; [|done].
    cbn [mbind result_bind] in H.
    apply sight_entries_inv in E as (Hseq & Hsz1 & Hkeep1 & Hsight1 & Hslot1).
    destruct (IH _ _ H) as (Hsz & Hkeep & Hsight & Hslot). rewrite Hseq in *.
    split; [|split; [|split]].
    + intros Hwf. by apply Hsz, Hsz1.
    + intros k Hk. by apply Hkeep, Hkeep1.
    + intros s Hs. simpl in Hs. apply elem_of_app in Hs as [Hs|Hs].
      * by apply Hkeep, Hsight1.
      * by apply Hsight.
    + intros k v. simpl. rewrite sighted_quantities_app, running_total_app.
      rewrite Hslot1. cbn [mbind result_bind]. apply Hslot.
Qed.

(** The merged-part dictionary in terms of the sightings. *)
Lemma build_parts_inv sheets st :
  build_parts sheets = Ok st ->
  vectors_sized (length sheets) st
  ∧ (∀ s, s ∈ sightings sheets -> is_Some (parts st !! s.1.1))
  ∧ (∀ k v, running_total (sighted_quantities (sightings sheets) k v) None
            = Ok (slot_of st k v)).
Proof.
  unfold build_parts. intros H.
  apply merge_sheets_inv in H as (Hsz & _ & Hsight & Hslot). simpl in *.
  split; [|split].
  - apply Hsz. intros k p Hk. cbn [parts] in Hk. by rewrite lookup_empty in Hk.
  - exact Hsight.
  - intros k v. specialize (Hslot k v). unfold slot_of at 1 in Hslot.
    cbn [parts] in Hslot. by rewrite lookup_empty in Hslot.
Qed.

Lemma slot_in_range n st k p v :
  vectors_sized n st -> parts st !! k = Some p -> v < n ->
  qtys p !! v = Some (slot_of st k v).
Proof.
  intros Hwf Hk Hv. unfold slot_of. rewrite Hk.
  destruct (lookup_lt_is_Some_2 (qtys p) v) as [x Hx]; [by rewrite (Hwf k p Hk)|].
  by rewrite Hx.
Qed.

Lemma running_total_ints qs zs z0 :
  Forall2 (fun q z => int_quantity q = Some z) qs zs ->
  running_total qs (slot_of_total z0) = Ok (slot_of_total (z0 + sum_Z zs)).
Proof.
  intros H. revert z0. induction H as [|q z qs zs Hq _ IH]; intros z0.
  - simpl. by rewrite Z.add_0_r.
  - unfold running_total in *. simpl.
    assert (Hstep : accumulate (slot_of_total z0) q = Ok (slot_of_total (z0 + z))).
    { destruct q as [[x|f]|]; simpl in Hq; [| done |].
      - injection Hq as ->. unfold accumulate, slot_of_total, or_zero.
        destruct (Z.eqb_spec z0 0) as [->|Hz]; simpl.
        + done.
        + destruct (Z.eqb_spec z0 0); [done|]. simpl. done.
      - injection Hq as <-. simpl. by rewrite Z.add_0_r. }
    rewrite Hstep. cbn [mbind result_bind]. rewrite IH. f_equal. f_equal. lia.
Qed.

Lemma running_total_absent qs slot :
  Forall (fun q => q = None) qs -> running_total qs slot = Ok slot.
Proof.
  intros H. induction H as [|q qs -> _ IH]; [done|].
  unfold running_total in *. simpl. exact IH.
Qed.





(** With [quantity r] absent, an iteration succeeds and touches no
    quantity vector. *)
Lemma sight_absent n vi st r :
  quantity r = None -> vi < n -> vectors_sized n st ->
  let key := make_key r vi (seq_counter st) in
  sight n vi st r
  = Ok {| parts := match parts st !! key with
                   | Some _ => parts st
                   | None => <[key := {| mp_entry := r; qtys := replicate n None |}]>
                               (parts st)
                   end;
          initial_order := if bool_decide (key ∈ initial_order st)
                           then initial_order st else initial_order st ++ [key];
          seq_counter := S (seq_counter st) |}.
Proof.
  intros Hq Hvi Hwf key. unfold sight. fold key. rewrite Hq.
  destruct (parts st !! key) as [p|] eqn:E.
  - destruct (lookup_lt_is_Some_2 (qtys p) vi) as [x Hx]; [by rewrite (Hwf key p E)|].
    unfold py_index. rewrite Hx. done.
  - unfold py_index. cbn [qtys]. rewrite lookup_replicate_2 by done. done.
Qed.

(** *** The merge completes on integer quantities *)

Lemma accumulate_integers existing q :
  is_Some (int_quantity existing) -> is_Some (int_quantity q) ->
  ∃ slot, accumulate existing q = Ok slot ∧ is_Some (int_quantity slot).
Proof.
  intros He Hq. destruct q as [[z|f]|]; simpl in *.
  - destruct existing as [[x|g]|]; simpl in *.
    + destruct (x =? 0)%Z; simpl; destruct (_ =? 0)%Z; eauto.
    + by destruct He.
    + destruct (_ =? 0)%Z; eauto.
  - by destruct Hq.
  - eauto.
Qed.

Lemma sight_total n vi st r :
  vi < n -> vectors_sized n st -> integer_slots st ->
  is_Some (int_quantity (quantity r)) ->
  ∃ st', sight n vi st r = Ok st' ∧ integer_slots st'.
Proof.
  intros Hvi Hwf Hint Hq. unfold sight.
  set (key := make_key r vi (seq_counter st)).
  set (fresh := {| mp_entry := r; qtys := replicate n None |}).
  assert (Hfresh : Forall (fun s => is_Some (int_quantity s)) (qtys fresh)).
  { apply Forall_lookup_2. intros i x Hx.
    apply lookup_replicate_1 in Hx as [-> _]. simpl. eauto. }
  assert (Hstep : ∀ p parts1,
            length (qtys p) = n ->
            Forall (fun s => is_Some (int_quantity s)) (qtys p) ->
            (∀ k q, parts1 !! k = Some q ->
                    Forall (fun s => is_Some (int_quantity s)) (qtys q)) ->
            ∃ st',
              (existing ← py_index (qtys p) vi;
               slot ← accumulate existing (quantity r);
               Ok {| parts := match quantity r with
                              | Some _ =>
                                  <[key := {| mp_entry := mp_entry p;
                                              qtys := <[vi := slot]> (qtys p) |}]> parts1
                              | None => parts1
                              end;
                     initial_order := if bool_decide (key ∈ initial_order st)
                                      then initial_order st
                                      else initial_order st ++ [key];
                     seq_counter := S (seq_counter st) |}) = Ok st'
              ∧ integer_slots st').
  { intros p parts1 Hlen Hp H1.
    destruct (lookup_lt_is_Some_2 (qtys p) vi) as [existing He]; [by rewrite Hlen|].
    unfold py_index. rewrite He. cbn [mbind result_bind].
    destruct (accumulate_integers existing (quantity r)) as (slot & -> & Hslot);
      [by apply (Forall_lookup_1 _ _ _ _ Hp He) | done |].
    cbn [mbind result_bind]. eexists. split; [done|].
    intros k q Hk. cbn [parts] in Hk.
    destruct (quantity r); [|by apply (H1 k)].
    destruct (decide (k = key)) as [->|Hne].
    - rewrite lookup_insert_eq in Hk. injection Hk as <-. cbn [qtys].
      by apply Forall_insert.
    - rewrite lookup_insert_ne in Hk by done. by apply (H1 k). }
  destruct (parts st !! key) as [p|] eqn:E.
  - apply Hstep; [by apply (Hwf key) | by apply (Hint key) | done].
  - apply Hstep; [apply length_replicate | done |].
    intros k q Hk. destruct (decide (k = key)) as [->|Hne].
    + rewrite lookup_insert_eq in Hk. by injection Hk as <-.
    + rewrite lookup_insert_ne in Hk by done. by apply (Hint k).
Qed.

Lemma sight_entries_total n vi ents st :
  vi < n -> vectors_sized n st -> integer_slots st ->
  Forall (fun r => is_Some (int_quantity (quantity r))) ents ->
  ∃ st', for_each ents (sight n vi) st = Ok st'
         ∧ vectors_sized n st' ∧ integer_slots st'.
Proof.
  intros Hvi Hwf Hint Hents. revert st Hwf Hint.
  induction Hents as [|r ents Hr _ IH]; intros st Hwf Hint; simpl; [eauto|].
  destruct (sight_total n vi st r Hvi Hwf Hint Hr) as (st1 & E & Hint1).
  rewrite E. cbn [mbind result_bind].
  apply IH; [by apply (sight_sized _ _ _ _ _ E) | done].
Qed.

Lemma merge_sheets_total n sheets vi st :
  vi + length sheets <= n -> vectors_sized n st -> integer_slots st ->
  integer_quantities sheets ->
  ∃ st', merge_sheets n vi sheets st = Ok st'.
Proof.
  intros Hn Hwf Hint Hq. revert vi st Hn Hwf Hint.
  induction Hq as [|sh sheets Hsh _ IH]; intros vi st Hn Hwf Hint; simpl in *; [eauto|].
  destruct (sight_entries_total n vi (sheet_ents sh) st) as (st1 & -> & Hwf1 & Hint1);
    [lia | done | done | done |].
  cbn [mbind result_bind]. apply IH; [lia | done | done].
Qed.

(** When every quantity is absent or an integer, the merge raises
    nothing. *)
Lemma build_parts_total_on_integers sheets :
  integer_quantities sheets -> ∃ st, build_parts sheets = Ok st.
Proof.
  intros Hq. unfold build_parts. apply merge_sheets_total; [simpl; lia | | | done].
  - intros k p Hk. cbn [parts] in Hk. by rewrite lookup_empty in Hk.
  - intros k p Hk. cbn [parts] in Hk. by rewrite lookup_empty in Hk.
Qed.

(** C9: sighting an entry whose quantity is absent succeeds and leaves
    every quantity vector as it was, a part seen for the first time being
    seeded with a vector of absent slots; so, after the whole merge, the
    slot of a variant all of whose sightings of a key carry no quantity is
    absent, not zero. *)
Theorem absent_quantity_leaves_vector :
  (∀ n vi st r,
     quantity r = None -> vi < n -> vectors_sized n st ->
     let key := make_key r vi (seq_counter st) in
     ∃ st', sight n vi st r = Ok st' ∧
            (∀ k p, parts st !! k = Some p -> parts st' !! k = Some p) ∧
            (parts st !! key = None ->
             parts st' !! key = Some {| mp_entry := r; qtys := replicate n None |}) ∧
            (∀ k, k ≠ key -> parts st' !! k = parts st !! k))
  ∧ (∀ sheets st k p v,
       build_parts sheets = Ok st ->
       parts st !! k = Some p ->
       v < length sheets ->
       Forall (fun q => q = None) (sighted_quantities (sightings sheets) k v) ->
       qtys p !! v = Some None).
Proof.
  split.
  - intros n vi st r Hq Hvi Hwf key.
    eexists. split; [by apply sight_absent|]. cbn [parts]. fold key.
    split; [|split].
    + intros k p Hk. destruct (parts st !! key) eqn:E; [done|].
      rewrite lookup_insert_ne; [done|]. intros <-. congruence.
    + intros ->. by rewrite lookup_insert_eq.
    + intros k Hne. destruct (parts st !! key); [done|].
      by rewrite lookup_insert_ne.
  - intros sheets st k p v Hb Hk Hv Habs.
    apply build_parts_inv in Hb as (Hwf & _ & Hslot).
    rewrite (slot_in_range _ _ _ _ _ Hwf Hk Hv). f_equal.
    specialize (Hslot k v). rewrite running_total_absent in Hslot by done.
    by injection Hslot as <-.
Qed.

Lemma absent_quantity_leaves_vector_witness :
  ∃ st p,
    build_parts example_absent = Ok st
    ∧ parts st !! (u8 "PN-1@@n=") = Some p
    ∧ sighted_quantities (sightings example_absent) (u8 "PN-1@@n=") 0 = [None; None]
    ∧ qtys p !! 0 = Some None
    ∧ qtys p !! 1 = Some (Some (PyInt 2)).
Proof.
  destruct (build_parts example_absent) as [st|] eqn:Hb; [|by vm_compute in Hb].
  destruct (parts st !! u8 "PN-1@@n=") as [p|] eqn:Hp.
  2:{ revert Hp. injection Hb as <-. vm_compute. discriminate. }
  exists st, p. split; [done|]. split; [done|]. split; [vm_compute; reflexivity|].
  split.
  - apply (proj2 absent_quantity_leaves_vector example_absent st (u8 "PN-1@@n=") p 0
             Hb Hp).
    + simpl. lia.
    + vm_compute. repeat constructor.
  - revert Hp. injection Hb as <-. vm_compute. by intros [= <-].
Defined.

(** C3: within one variant the slot of a key holds the running total of
    the quantities sighted for that key in that variant, an exact zero
    being stored as absent; for integer quantities that is their sum, or
    absent when the sum is zero, so that 3 and -3 leave the slot absent;
    and a merge of integer or absent quantities always completes. *)
Theorem quantity_accumulation (sheets : list Sheet) :
  (integer_quantities sheets -> ∃ st, build_parts sheets = Ok st)
  ∧ (∀ st k p v,
       build_parts sheets = Ok st ->
       parts st !! k = Some p ->
       v < length sheets ->
       let qs := sighted_quantities (sightings sheets) k v in
       (∃ slot, qtys p !! v = Some slot ∧ running_total qs None = Ok slot)
       ∧ (∀ zs, Forall2 (fun q z => int_quantity q = Some z) qs zs ->
                qtys p !! v = Some (if (sum_Z zs =? 0)%Z then None
                                    else Some (PyInt (sum_Z zs))))).
Proof.
  split; [apply build_parts_total_on_integers|].
  intros st k p v Hb Hk Hv qs.
  apply build_parts_inv in Hb as (Hwf & _ & Hslot).
  pose proof (slot_in_range _ _ _ _ _ Hwf Hk Hv) as Hq.
  specialize (Hslot k v). fold qs in Hslot. split.
  - exists (slot_of st k v). done.
  - intros zs Hzs. rewrite Hq. f_equal.
    pose proof (running_total_ints qs zs 0 Hzs) as Hi. cbn in Hi.
    change (slot_of_total 0) with (@None pynum) in Hi.
    rewrite Hslot in Hi. by injection Hi as ->.
Qed.

Lemma quantity_accumulation_witness :
  ∃ st p,
    build_parts example_cancelling = Ok st
    ∧ parts st !! (u8 "PN-1@@n=") = Some p
    ∧ sighted_quantities (sightings example_cancelling) (u8 "PN-1@@n=") 0
      = [Some (PyInt 3); Some (PyInt (-3))]
    ∧ qtys p !! 0 = Some None.
Proof.
  destruct (proj1 (quantity_accumulation example_cancelling)) as [st Hb].
  { repeat constructor; simpl; eauto. }
  destruct (parts st !! u8 "PN-1@@n=") as [p|] eqn:Hp.
  2:{ revert Hp. vm_compute in Hb. injection Hb as <-. vm_compute. discriminate. }
  exists st, p. split; [done|]. split; [done|]. split; [vm_compute; reflexivity|].
  apply (proj2 (proj2 (quantity_accumulation example_cancelling) st (u8 "PN-1@@n=") p 0
                  Hb Hp ltac:(simpl; lia)) [3; -3]%Z).
  vm_compute. repeat constructor.
Defined.



(** * Further properties of the code *)

(** ** Cells *)

Lemma replace_char_absent old new (s : pystr) :
  ¬ In old s -> py_replace_char old new s = s.
Proof.
  induction s as [|c s IH]; intros H; simpl; [done|].
  destruct (N.eqb_spec c old) as [->|_].
  - exfalso. apply H. by left.
  - f_equal. apply IH. intros Hin. apply H. by right.
Qed.

Lemma last_head_rev {A} (l : list A) : last l = head (rev l).
Proof.
  induction l as [|x l _] using rev_ind; [done|].
  by rewrite last_snoc, rev_unit.
Qed.

(** X1: [clean_cell] returns a text without newline and without white space
    at either end, and cleaning such a text again changes nothing. *)
Theorem clean_cell_canonical (c : cell) :
  ¬ In 10%N (clean_cell c)
  ∧ from_option (fun x => negb (is_space x)) true (head (clean_cell c)) = true
  ∧ from_option (fun x => negb (is_space x)) true (last (clean_cell c)) = true
  ∧ clean_cell (Some (clean_cell c)) = clean_cell c.
Proof.
  split; [apply clean_cell_no_newline|]. split; [|split].
  - destruct c as [s|]; [apply strip_chars_head | done].
  - destruct c as [s|]; [|done]. unfold clean_cell, py_strip.
    rewrite last_head_rev. apply strip_chars_last.
  - unfold clean_cell at 1.
    rewrite replace_char_absent by apply clean_cell_no_newline.
    apply clean_cell_stripped.
Qed.

(** ** Entries of the row normaliser *)

(** The entry of a row, field by field. *)
Lemma normalize_row_entry ucd cut deleted cmap (r : row) e :
  normalize_row ucd cut deleted cmap r = Ok (Some e) ->
  let name_lines := raw_lines (default (Some []) (r !! part_name_col cmap)) in
  let cell_note := mapped_cell r (col_note cmap) in
  let note0 := if is_trivial_note ucd cell_note then [] else cell_note in
  let pname := reconstruct_name ucd cut name_lines in
  let pn := match r !! part_number_col cmap with
            | Some c => normalize_text ucd (clean_cell c)
            | None => []
            end in
  (detect_level r =? 1)%nat
    && contains (u8 "outline drawing") (py_lower ucd (py_join [32%N] name_lines)) = false
  ∧ pname ≠ []
  ∧ e = {| level := detect_level r;
           part_name := pname;
           display_name := if bool_decide (note0 = []) then pname else note0;
           note := note0;
           note_norm := normalize_note ucd note0;
           part_number := pn;
           drawing_no := pn;
           change := revision_of ucd (mapped_cell r (col_change cmap));
           quantity := parse_quantity ucd (mapped_cell r (col_quantity cmap));
           flag_multiline_en := multiline_english cut name_lines;
           flag_note_used := negb (bool_decide (note0 = [])) |}.
Proof.
  unfold normalize_row. destruct r as [|c0 r]; [discriminate|].
  cbn [py_index lookup list_lookup mbind result_bind]. cbv zeta.
  intros H.
  destruct (bool_decide (clean_cell c0 = []) || negb (re_match_item_index ucd (clean_cell c0)));
    [discriminate|].
  destruct (match parse_index_int ucd (clean_cell c0) with
            | Some n => bool_decide (n ∈ deleted)
            | None => false
            end); [discriminate|].
  destruct (_ && contains _ _) eqn:Eo; [discriminate|].
  destruct (bool_decide (reconstruct_name ucd cut _ = [])) eqn:Ep; [discriminate|].
  apply bool_decide_eq_false in Ep.
  injection H as <-. done.
Qed.

Lemma split_ws_elem cur s w c :
  In w (split_ws cur s) -> In c w -> In c cur ∨ In c s.
Proof.
  revert cur. induction s as [|x s IH]; intros cur Hw Hc; simpl in Hw.
  - destruct cur as [|y cur]; [done|]. destruct Hw as [<-|[]].
    left. by apply in_rev.
  - destruct (is_space x).
    + destruct cur as [|y cur].
      * destruct (IH [] Hw Hc) as [[]|H]. right. by right.
      * destruct Hw as [<-|Hw]; [left; by apply in_rev|].
        destruct (IH [] Hw Hc) as [[]|H]. right. by right.
    + destruct (IH (x :: cur) Hw Hc) as [[<-|H]|H]; [right; by left | by left |].
      right. by right.
Qed.

Lemma split_ws_word cur s w :
  forallb (fun c => negb (is_space c)) cur = true ->
  In w (split_ws cur s) -> w ≠ [] ∧ forallb (fun c => negb (is_space c)) w = true.
Proof.
  revert cur. induction s as [|x s IH]; intros cur Hcur Hw; simpl in Hw.
  - destruct cur as [|y cur]; [done|]. destruct Hw as [<-|[]]. split.
    + intros E. apply (f_equal (@rev _)) in E. by rewrite rev_involutive in E.
    + rewrite forallb_forall in *. intros c Hc. apply Hcur. by apply in_rev.
  - destruct (is_space x) eqn:Ex.
    + destruct cur as [|y cur]; [by apply (IH [])|].
      destruct Hw as [<-|Hw]; [|by apply (IH [])]. split.
      * intros E. apply (f_equal (@rev _)) in E. by rewrite rev_involutive in E.
      * rewrite forallb_forall in *. intros c Hc. apply Hcur. by apply in_rev.
    + apply (IH (x :: cur)); [|done]. simpl. by rewrite Ex.
Qed.

Lemma ascii_case_is_ascii c :
  is_ascii c = true -> is_ascii (ascii_upper c) = true ∧ is_ascii (ascii_lower c) = true.
Proof.
  unfold is_ascii, ascii_upper, ascii_lower, ascii_is_lower, ascii_is_upper.
  intros H. apply N.ltb_lt in H.
  destruct (N.leb_spec 97 c), (N.leb_spec c 122), (N.leb_spec 65 c), (N.leb_spec c 90);
    simpl; split; apply N.ltb_lt; lia.
Qed.

Lemma fmt_ascii cut w :
  forallb is_ascii w = true -> forallb is_ascii (fmt cut w) = true.
Proof.
  intros H. unfold fmt.
  assert (Hmap : ∀ f, (∀ c, is_ascii c = true -> is_ascii (f c) = true) ->
                      ∀ l, forallb is_ascii l = true ->
                           forallb is_ascii (List.map f l) = true).
  { intros f Hf l Hl. rewrite forallb_forall in *. intros x Hx.
    apply in_map_iff in Hx as (c & <- & Hc). apply Hf, Hl, Hc. }
  destruct (existsb ascii_is_digit w).
  - apply Hmap; [|done]. intros c Hc. by apply ascii_case_is_ascii.
  - destruct (ascii_isupper w && _); [done|].
    destruct w as [|c w]; [done|]. simpl in *. apply andb_prop in H as [Hc Hw].
    rewrite (proj1 (ascii_case_is_ascii c Hc)). simpl.
    apply Hmap; [|done]. intros x Hx. by apply ascii_case_is_ascii.
Qed.

Lemma py_join_elem sep parts c :
  In c (py_join sep parts) -> In c sep ∨ ∃ p, In p parts ∧ In c p.
Proof.
  induction parts as [|p parts IH]; simpl; [done|].
  destruct parts as [|q parts].
  - intros H. right. exists p. split; [by left | done].
  - intros H. apply in_app_or in H as [H|H]; [right; exists p; split; [by left|done]|].
    apply in_app_or in H as [H|H]; [by left|].
    destruct (IH H) as [Hs|(p' & Hp' & Hc)]; [by left|].
    right. exists p'. split; [by right | done].
Qed.

Lemma reconstruct_name_ascii ucd cut name_lines :
  forallb is_ascii (reconstruct_name ucd cut name_lines) = true.
Proof.
  unfold reconstruct_name. rewrite forallb_forall. intros c Hc.
  apply strip_chars_elem in Hc. apply py_join_elem in Hc as [Hc|(p & Hp & Hc)].
  - destruct Hc as [<-|[]]. done.
  - apply in_map_iff in Hp as (w & <- & Hw).
    assert (Hascii : forallb is_ascii w = true).
    { rewrite forallb_forall. intros x Hx.
      destruct (split_ws_elem _ _ _ _ Hw Hx) as [[]|Hs].
      unfold strip_non_ascii in Hs. by apply filter_In in Hs as [_ ?]. }
    pose proof (fmt_ascii cut w Hascii) as Hf. rewrite forallb_forall in Hf. by apply Hf.
Qed.

Lemma detect_level_range (r : row) : 1 <= detect_level r <= 5.
Proof.
  unfold detect_level. destruct (List.find _ (seq 1 5)) as [ci|] eqn:E; simpl; [|lia].
  apply find_some in E as [Hin _]. apply in_seq in Hin. lia.
Qed.

(** X2: an entry of the row normaliser has a level from 1 to 5, a part
    name that is not empty, is ASCII only and has no white space at either
    end, a display name that is not empty, and its part number as drawing
    number. *)
Theorem emitted_entry_well_formed
    (ucd : UCD) (cut : nat) (deleted : gset Z) (cmap : ColumnMap) (r : row) (e : BomEntry) :
  normalize_row ucd cut deleted cmap r = Ok (Some e) ->
  1 <= level e <= 5
  ∧ part_name e ≠ []
  ∧ forallb is_ascii (part_name e) = true
  ∧ py_strip (part_name e) = part_name e
  ∧ display_name e ≠ []
  ∧ drawing_no e = part_number e.
Proof.
  intros H. apply normalize_row_entry in H as (_ & Hne & ->). cbn.
  split; [apply detect_level_range|]. split; [done|].
  split; [apply reconstruct_name_ascii|]. split; [apply strip_chars_idem|].
  split; [|done].
  destruct (bool_decide_reflect
              ((if is_trivial_note ucd (mapped_cell r (col_note cmap))
                then [] else mapped_cell r (col_note cmap)) = [])); done.
Qed.

Lemma emitted_entry_well_formed_witness :
  ∃ e, normalize_row sample_ucd CUT_THRESHOLD ∅ example_cmap example_row = Ok (Some e)
       ∧ level e = 2 ∧ part_name e = u8 "SY Bracket" ∧ 1 <= level e <= 5.
Proof.
  assert (Hrow : ∃ e, normalize_row sample_ucd CUT_THRESHOLD ∅ example_cmap example_row
                      = Ok (Some e)) by (vm_compute; eauto).
  destruct Hrow as [e He]. exists e. split; [done|].
  split; [|split; [|exact (proj1 (emitted_entry_well_formed _ _ _ _ _ _ He))]].
  - revert He. vm_compute. by intros [= <-].
  - revert He. vm_compute. by intros [= <-].
Defined.



(** X4: a row of level 1 whose part-name cell, its non-empty lines joined
    by blanks and lower-cased, contains "outline drawing" yields no
    entry. *)
Theorem outline_drawing_rows_skipped
    (ucd : UCD) (cut : nat) (deleted : gset Z) (cmap : ColumnMap) (r : row) :
  detect_level r = 1 ->
  contains (u8 "outline drawing")
    (py_lower ucd (py_join [32%N]
       (raw_lines (default (Some []) (r !! part_name_col cmap))))) = true ->
  ∀ e, normalize_row ucd cut deleted cmap r ≠ Ok (Some e).
Proof.
  intros Hl Hc e He. apply normalize_row_entry in He as (Ho & _).
  cbv zeta in Ho. rewrite Hl, Hc in Ho. done.
Qed.

Lemma outline_drawing_rows_skipped_witness :
  detect_level example_outline_row = 1
  ∧ ∀ e, normalize_row sample_ucd CUT_THRESHOLD ∅ example_cmap example_outline_row
         ≠ Ok (Some e).
Proof.
  split; [reflexivity|].
  apply outline_drawing_rows_skipped; vm_compute; reflexivity.
Defined.

(** ** Pages *)

(** X5: when the first table of a page has no header row among its rows and
    fewer than three rows, the fallback index 2 is out of range and parsing
    the page raises [IndexError]. *)
Theorem short_table_without_header_raises
    (ucd : UCD) (cut : nat) (entries : list BomEntry) (page : Page)
    (deleted : gset Z) (tbl : table) (others : list table) :
  get_deleted_indices ucd page = Ok deleted ->
  extract_tables page = tbl :: others ->
  length tbl <= 2 ->
  (∀ r, r ∈ tbl -> is_header_row ucd r = false) ->
  parse_page ucd cut entries page = Raise IndexError.
Proof.
  intros Hd Ht Hlen Hno. unfold parse_page. rewrite Hd, Ht.
  cbn [mbind result_bind].
  assert (Hh : locate_header ucd tbl = 2).
  { unfold locate_header. rewrite find_index_none; [done|].
    intros j y Hy. apply Hno. apply list_elem_of_lookup_2 with j.
    destruct (decide (j < 6)); [by rewrite lookup_take_lt in Hy|].
    by rewrite lookup_take_ge in Hy by lia. }
  rewrite Hh. unfold py_index. rewrite lookup_ge_None_2 by lia. done.
Qed.

Lemma short_table_without_header_raises_witness :
  parse_bom_pdf sample_ucd [example_short_page] = Raise IndexError.
Proof.
  unfold parse_bom_pdf, parse_pages. cbn [for_each].
  rewrite (short_table_without_header_raises sample_ucd CUT_THRESHOLD [] example_short_page
             ∅ [[Some (u8 "1"); Some (u8 "PN-1")]; [Some (u8 "2"); Some (u8 "PN-2")]] []).
  - reflexivity.
  - reflexivity.
  - reflexivity.
  - simpl. lia.
  - intros r Hr. apply elem_of_cons in Hr as [->|Hr]; [vm_compute; reflexivity|].
    apply elem_of_cons in Hr as [->|Hr]; [vm_compute; reflexivity|].
    by apply elem_of_nil in Hr.
Defined.

(** X6: the row loop raises exactly when one of the rows has no cell at
    all, and then it raises [IndexError]; otherwise it returns the
    entries. *)
Theorem row_loop_raises_on_empty_row
    (ucd : UCD) (cut : nat) (deleted : gset Z) (cmap : ColumnMap) (rows : list row) :
  (([] : row) ∈ rows ->
   ∀ entries, parse_rows ucd cut deleted cmap rows entries = Raise IndexError)
  ∧ (([] : row) ∉ rows ->
     ∀ entries, ∃ es, parse_rows ucd cut deleted cmap rows entries = Ok es).
Proof.
  unfold parse_rows. induction rows as [|r rows [IH1 IH2]].
  - split; [intros H; by apply elem_of_nil in H | intros _ entries; simpl; eauto].
  - split.
    + intros Hin entries. simpl. destruct r as [|c0 r]; [done|].
      destruct (normalize_row_total ucd cut deleted cmap (c0 :: r)) as [o ->]; [done|].
      cbn [mbind result_bind]. apply IH1.
      by apply elem_of_cons in Hin as [Hin|Hin].
    + intros Hnot entries. simpl.
      destruct (normalize_row_total ucd cut deleted cmap r) as [o ->].
      { intros ->. apply Hnot. left. }
      cbn [mbind result_bind]. apply IH2. intros Hin. apply Hnot. by right.
Qed.

Lemma row_loop_raises_on_empty_row_witness :
  parse_rows sample_ucd CUT_THRESHOLD ∅ example_cmap [example_row; []] []
  = Raise IndexError.
Proof.
  apply (proj1 (row_loop_raises_on_empty_row sample_ucd CUT_THRESHOLD ∅ example_cmap
                  [example_row; []])).
  right. left.
Defined.

(** ** Deletion detector *)

Lemma for_each_skip {A S} (xs : list A) (body : S -> A -> result S) (s : S) :
  (∀ x, x ∈ xs -> body s x = Ok s) -> for_each xs body s = Ok s.
Proof.
  induction xs as [|x xs IH]; intros H; simpl; [done|].
  rewrite (H x) by left. cbn [mbind result_bind].
  apply IH. intros y Hy. apply H. by right.
Qed.

Lemma for_each_invariant {A S} (P : S -> Prop) (xs : list A)
    (body : S -> A -> result S) (s s' : S) :
  (∀ s1 x s2, x ∈ xs -> body s1 x = Ok s2 -> P s1 -> P s2) ->
  for_each xs body s = Ok s' -> P s -> P s'.
Proof.
  revert s. induction xs as [|x xs IH]; intros s Hbody H Hs; simpl in H.
  - by injection H as <-.
  - destruct (body s x) as [s1|] eqn:E; [|done]. cbn [mbind result_bind] in H.
    apply (IH s1); [|done|].
    + intros s2 y s3 Hy. apply Hbody. by right.
    + apply (Hbody s x s1); [left | done | done].
Qed.

(** X7: a page with no pure-red line, no pure-red curve and no pure-red
    glyph left of x = 103 has an empty deletion set, and the detector never
    crops the page, so a crop that would raise does no harm. *)
Theorem no_red_mark_no_deletion (ucd : UCD) (page : Page) :
  (∀ o, ¬ red_mark page o) ->
  get_deleted_indices ucd page = Ok ∅.
Proof.
  intros Hno. unfold get_deleted_indices.
  rewrite for_each_skip.
  2:{ intros o Ho. destruct (is_pure_red (stroking_color o)) eqn:E; [|done].
      exfalso. apply (Hno o). left. done. }
  cbn [mbind result_bind]. rewrite for_each_skip.
  2:{ intros o Ho. destruct (is_pure_red (stroking_color o)) eqn:E; [|done].
      exfalso. apply (Hno o). right. left. done. }
  cbn [mbind result_bind]. apply for_each_skip.
  intros o Ho. destruct (is_pure_red (non_stroking_color o)) eqn:E; [|done].
  destruct (Qle_bool 103 (default 9999%Q (x0 o))) eqn:Ex; [done|].
  exfalso. apply (Hno o). right. right. done.
Qed.

Lemma no_red_mark_no_deletion_witness :
  get_deleted_indices sample_ucd example_unmarked_page = Ok ∅
  ∧ crop_text example_unmarked_page (gutter_box {| stroking_color := None;
        non_stroking_color := None; x0 := None; top := 0; bottom := 0 |})
    = Raise ValueError.
Proof.
  split; [|reflexivity]. apply no_red_mark_no_deletion.
  intros o [[Ho Hr]|[[Ho Hr]|(Ho & Hr & Hx)]].
  - apply elem_of_cons in Ho as [->|Ho]; [by vm_compute in Hr | by apply elem_of_nil in Ho].
  - by apply elem_of_nil in Ho.
  - apply elem_of_cons in Ho as [->|Ho]; [by vm_compute in Hx | by apply elem_of_nil in Ho].
Defined.

Lemma digits_value_nonneg ucd ds : (0 <= digits_value ucd ds)%Z.
Proof.
  unfold digits_value.
  assert (H : ∀ acc, (0 <= acc)%Z ->
            (0 <= fold_left (fun acc c =>
                    (10 * acc + Z.of_N (default 0%N (decimal_value ucd c)))%Z) ds acc)%Z).
  { induction ds as [|c ds IH]; intros acc Hacc; simpl; [done|]. apply IH. lia. }
  by apply H.
Qed.

(** What one red mark adds to the deletion set. *)
Lemma flag_gutter_index_inv ucd page deleted o deleted' n :
  flag_gutter_index ucd page deleted o = Ok deleted' ->
  n ∈ deleted' ->
  n ∈ deleted
  ∨ ∃ s m, crop_text page (gutter_box o) = Ok (Some s) ∧
           re_search_digits ucd s = Some m ∧ n = digits_value ucd m.
Proof.
  unfold flag_gutter_index. fold (gutter_box o).
  destruct (crop_text page (gutter_box o)) as [t|] eqn:Ec; [|done].
  cbn [mbind result_bind]. intros [= <-] Hn.
  destruct t as [[|c s]|]; [by left| |by left].
  destruct (re_search_digits ucd (c :: s)) as [m|] eqn:Em; [|by left].
  assert (Hm : m ≠ [] ∧ forallb (is_digit ucd) m = true).
  { unfold re_search_digits in Em.
    pose proof (take_while_all (is_digit ucd)
                  (drop_while (fun c => negb (is_digit ucd c)) (c :: s))) as Hall.
    destruct (take_while _ _) eqn:E; [done|]. injection Em as <-. done. }
  destruct Hm as [Hne Hall]. rewrite (py_int_digits ucd m Hne Hall) in Hn.
  apply elem_of_union in Hn as [Hn|Hn]; [|by left].
  apply elem_of_singleton in Hn. right. exists (c :: s), m. done.
Qed.

(** X8: every integer of a page's deletion set is the number denoted by
    the first run of digits of the text cropped around one of the page's
    red marks, and so is not negative. *)
Theorem deletion_set_provenance (ucd : UCD) (page : Page) (deleted : gset Z) (n : Z) :
  get_deleted_indices ucd page = Ok deleted ->
  n ∈ deleted ->
  (0 <= n)%Z
  ∧ ∃ o s m, red_mark page o ∧
             crop_text page (gutter_box o) = Ok (Some s) ∧
             re_search_digits ucd s = Some m ∧
             n = digits_value ucd m.
Proof.
  intros H Hn.
  set (P := fun d : gset Z =>
         ∀ n, n ∈ d -> ∃ o s m, red_mark page o ∧
                                crop_text page (gutter_box o) = Ok (Some s) ∧
                                re_search_digits ucd s = Some m ∧
                                n = digits_value ucd m).
  assert (HP : P deleted).
  { unfold get_deleted_indices in H.
    destruct (for_each (lines page) _ ∅) as [d1|] eqn:E1; [|done].
    cbn [mbind result_bind] in H.
    destruct (for_each (curves page) _ d1) as [d2|] eqn:E2; [|done].
    cbn [mbind result_bind] in H.
    assert (P1 : P d1).
    { refine (for_each_invariant P _ _ _ _ _ E1 _).
      - intros s1 o s2 Ho Hb Hs1 k Hk.
        destruct (is_pure_red (stroking_color o)) eqn:Er; [|injection Hb as <-; by apply Hs1].
        destruct (flag_gutter_index_inv _ _ _ _ _ _ Hb Hk) as [Hold|(s & m & ?)];
          [by apply Hs1|].
        exists o, s, m. split; [left; done | done].
      - intros k Hk. by apply elem_of_empty in Hk. }
    assert (P2 : P d2).
    { refine (for_each_invariant P _ _ _ _ _ E2 P1).
      intros s1 o s2 Ho Hb Hs1 k Hk.
      destruct (is_pure_red (stroking_color o)) eqn:Er; [|injection Hb as <-; by apply Hs1].
      destruct (flag_gutter_index_inv _ _ _ _ _ _ Hb Hk) as [Hold|(s & m & ?)];
        [by apply Hs1|].
      exists o, s, m. split; [right; left; done | done]. }
    refine (for_each_invariant P _ _ _ _ _ H P2).
    intros s1 o s2 Ho Hb Hs1 k Hk.
    destruct (is_pure_red (non_stroking_color o)) eqn:Er;
      [|injection Hb as <-; by apply Hs1].
    destruct (Qle_bool 103 (default 9999%Q (x0 o))) eqn:Ex;
      [injection Hb as <-; by apply Hs1|].
    cbn [negb andb] in Hb.
    destruct (flag_gutter_index_inv _ _ _ _ _ _ Hb Hk) as [Hold|(s & m & ?)];
      [by apply Hs1|].
    exists o, s, m. split; [right; right; done | done]. }
  destruct (HP n Hn) as (o & s & m & Hr & Hc & Hm & ->).
  split; [apply digits_value_nonneg|]. by exists o, s, m.
Qed.

Lemma deletion_set_provenance_witness :
  get_deleted_indices sample_ucd example_page = Ok {[ 12%Z ]}
  ∧ (0 <= 12)%Z
  ∧ ∃ o s m, red_mark example_page o ∧
             crop_text example_page (gutter_box o) = Ok (Some s) ∧
             re_search_digits sample_ucd s = Some m ∧
             12%Z = digits_value sample_ucd m.
Proof.
  assert (H : get_deleted_indices sample_ucd example_page = Ok {[ 12%Z ]})
    by (vm_compute; reflexivity).
  split; [exact H|].
  apply (deletion_set_provenance sample_ucd example_page {[ 12%Z ]} 12 H).
  by apply elem_of_singleton.
Defined.

(** ** Column map *)

Lemma map_column_role ucd cmap ci c role :
  role_column (map_column ucd cmap ci c) role
  = if bool_decide (header_role ucd c = Some role) then Some ci
    else role_column cmap role.
Proof.
  unfold map_column, header_role.
  destruct (contains (u8 "part number") _); [by destruct role|].
  destruct (contains (u8 "part name") _); [by destruct role|].
  destruct (contains (u8 "qty") _); [by destruct role|].
  destruct (contains (u8 "change") _ || startswith (u8 "rev") _); [by destruct role|].
  destruct (contains (u8 "note") _ || contains (u8 "備") _); by destruct role.
Qed.

Lemma map_columns_from_app ucd ci l1 l2 cmap :
  map_columns_from ucd ci (l1 ++ l2) cmap
  = map_columns_from ucd (ci + length l1) l2 (map_columns_from ucd ci l1 cmap).
Proof.
  revert ci cmap. induction l1 as [|c l1 IH]; intros ci cmap; simpl.
  - by rewrite Nat.add_0_r.
  - rewrite IH. f_equal. lia.
Qed.

Lemma map_columns_from_other ucd ci l cmap role :
  (∀ c, c ∈ l -> header_role ucd c ≠ Some role) ->
  role_column (map_columns_from ucd ci l cmap) role = role_column cmap role.
Proof.
  revert ci cmap. induction l as [|c l IH]; intros ci cmap H; simpl; [done|].
  rewrite IH by (intros c' Hc'; apply H; by right).
  rewrite map_column_role, bool_decide_eq_false_2; [done|]. apply H. left.
Qed.

Lemma map_columns_default ucd hdr role :
  role_column (map_columns ucd hdr) role
  = match role_column (map_columns_from ucd 0 hdr
                         {| col_part_number := None; col_part_name := None;
                            col_quantity := None; col_change := None;
                            col_note := None |}) role with
    | Some i => Some i
    | None => role_default role
    end.
Proof.
  unfold map_columns. set (raw := map_columns_from _ _ _ _).
  destruct role; simpl; by destruct (_ raw).
Qed.

(** X9: the column map gives each role the index of the last header cell
    of that role, a cell having the role of the first keyword test it
    passes; a role no header cell has gets its default, 6 for the part
    number, 19 for the part name and none for quantity, change and note. *)
Theorem column_map_last_cell_wins (ucd : UCD) (hdr : row) (role : column_role) :
  (∀ i c, hdr !! i = Some c ->
          header_role ucd c = Some role ->
          (∀ j c', i < j -> hdr !! j = Some c' -> header_role ucd c' ≠ Some role) ->
          role_column (map_columns ucd hdr) role = Some i)
  ∧ ((∀ j c', hdr !! j = Some c' -> header_role ucd c' ≠ Some role) ->
     role_column (map_columns ucd hdr) role = role_default role).
Proof.
  split.
  - intros i c Hi Hc Hlast. rewrite map_columns_default.
    rewrite <- (take_drop_middle hdr i c Hi), map_columns_from_app. simpl.
    rewrite map_columns_from_other.
    + rewrite map_column_role, bool_decide_eq_true_2 by done.
      rewrite length_take. f_equal. apply lookup_lt_Some in Hi. lia.
    + intros c' Hc'. apply list_elem_of_lookup_1 in Hc' as [k Hk].
      rewrite lookup_drop in Hk. apply (Hlast (S i + k) c' ltac:(lia) Hk).
  - intros Hnone. rewrite map_columns_default, map_columns_from_other; [by destruct role|].
    intros c Hc. apply list_elem_of_lookup_1 in Hc as [k Hk]. by apply (Hnone k).
Qed.

Lemma column_map_last_cell_wins_witness :
  role_column (map_columns sample_ucd
                 [Some (u8 "Part Number"); Some (u8 "Qty"); Some (u8 "Customer Part Number")])
              RolePartNumber = Some 2.
Proof.
  apply (proj1 (column_map_last_cell_wins sample_ucd _ RolePartNumber) 2
           (Some (u8 "Customer Part Number"))).
  - reflexivity.
  - vm_compute. reflexivity.
  - intros j c' Hj Hc'. apply lookup_lt_Some in Hc'. simpl in Hc'. lia.
Defined.

(** ** Reconciler: the loop as a run over the sightings *)

Lemma sight_entries_replay n vi seq ents st :
  for_each ents (sight n vi) st = for_each (sightings_of vi seq ents) (sight_at n) st.
Proof.
  revert seq st. induction ents as [|r ents IH]; intros seq st; simpl; [done|].
  change (sight_at n st (make_key r vi seq, vi, r)) with (sight n vi st r).
  destruct (sight n vi st r); cbn [mbind result_bind]; [apply IH | done].
Qed.

Lemma merge_sheets_replay n sheets vi seq st :
  merge_sheets n vi sheets st = for_each (sightings_from vi seq sheets) (sight_at n) st.
Proof.
  revert vi seq st. induction sheets as [|sh sheets IH]; intros vi seq st; simpl; [done|].
  rewrite for_each_app, <- sight_entries_replay.
  destruct (for_each (sheet_ents sh) (sight n vi) st); cbn [mbind result_bind]; [apply IH | done].
Qed.

Lemma sightings_of_keyed vi seq ents : keyed seq (sightings_of vi seq ents).
Proof.
  revert seq. induction ents as [|r ents IH]; intros seq i k v r' Hi; [done|].
  destruct i as [|i]; simpl in Hi.
  - injection Hi as <- <- <-. by rewrite Nat.add_0_r.
  - rewrite (IH (S seq) i k v r' Hi). f_equal. lia.
Qed.

Lemma sightings_of_length vi seq ents : length (sightings_of vi seq ents) = length ents.
Proof. revert seq. induction ents as [|r ents IH]; intros seq; simpl; [done|]. by rewrite IH. Qed.

Lemma sightings_from_keyed vi seq sheets : keyed seq (sightings_from vi seq sheets).
Proof.
  revert vi seq. induction sheets as [|sh sheets IH]; intros vi seq i k v r Hi; [done|].
  simpl in Hi. apply lookup_app_Some in Hi as [Hi|[Hge Hi]].
  - by apply (sightings_of_keyed vi seq (sheet_ents sh) i).
  - rewrite sightings_of_length in Hge, Hi.
    rewrite (IH _ _ _ k v r Hi). f_equal. lia.
Qed.

Lemma keyed_tail seq s ss : keyed seq (s :: ss) -> keyed (S seq) ss.
Proof.
  intros H i k v r Hi. rewrite (H (S i) k v r Hi). f_equal. lia.
Qed.

(** The state after one iteration. *)
Lemma sight_state n vi st r st' :
  sight n vi st r = Ok st' ->
  let key := make_key r vi (seq_counter st) in
  let fresh := {| mp_entry := r; qtys := replicate n None |} in
  let p := default fresh (parts st !! key) in
  ∃ existing slot,
    qtys p !! vi = Some existing ∧
    accumulate existing (quantity r) = Ok slot ∧
    initial_order st' = (if bool_decide (key ∈ initial_order st)
                         then initial_order st else initial_order st ++ [key]) ∧
    (∀ k, k ≠ key -> parts st' !! k = parts st !! k) ∧
    parts st' !! key
    = Some (match quantity r with
            | None => p
            | Some _ => {| mp_entry := mp_entry p; qtys := <[vi := slot]> (qtys p) |}
            end).
Proof.
  intros H. cbv zeta. unfold sight in H.
  set (key := make_key r vi (seq_counter st)) in *.
  set (fresh := {| mp_entry := r; qtys := replicate n None |}) in *.
  destruct (parts st !! key) as [p0|] eqn:E; cbn [default from_option id] in *;
    unfold py_index in H.
  - destruct (qtys p0 !! vi) as [existing|] eqn:Ee; [|done].
    cbn [mbind result_bind] in H.
    destruct (accumulate existing (quantity r)) as [slot|] eqn:Ea; [|done].
    cbn [mbind result_bind] in H. injection H as <-.
    exists existing, slot. cbn [initial_order parts]. repeat split; try done.
    + intros k Hk. destruct (quantity r); [by rewrite lookup_insert_ne|done].
    + destruct (quantity r); [by rewrite lookup_insert_eq | done].
  - destruct (qtys fresh !! vi) as [existing|] eqn:Ee; [|done].
    cbn [mbind result_bind] in H.
    destruct (accumulate existing (quantity r)) as [slot|] eqn:Ea; [|done].
    cbn [mbind result_bind] in H. injection H as <-.
    exists existing, slot. cbn [initial_order parts]. repeat split; try done.
    + intros k Hk. destruct (quantity r); by rewrite !lookup_insert_ne.
    + destruct (quantity r); by rewrite lookup_insert_eq.
Qed.

Lemma sight_at_head n st k v r st' :
  sight_at n st (k, v, r) = Ok st' -> sight n v st r = Ok st'.
Proof. done. Qed.

(** An invariant of the loop body is an invariant of the whole merge. *)
Lemma build_parts_invariant (P : merge_state -> Prop) sheets st :
  (∀ vi st1 r st2, sight (length sheets) vi st1 r = Ok st2 -> P st1 -> P st2) ->
  P {| parts := ∅; initial_order := []; seq_counter := 0 |} ->
  build_parts sheets = Ok st -> P st.
Proof.
  intros Hstep H0 H. unfold build_parts in H.
  rewrite (merge_sheets_replay _ _ _ 0) in H.
  refine (for_each_invariant P _ _ _ _ _ H H0).
  intros st1 [[k v] r] st2 _ Hs. by apply (Hstep v st1 r st2).
Qed.

Lemma sight_order_lists n vi st r st' :
  sight n vi st r = Ok st' -> order_lists_parts st -> order_lists_parts st'.
Proof.
  intros H [Hnd Hdom].
  apply sight_state in H as (existing & slot & _ & _ & Ho & Hother & Hkey).
  cbv zeta in *. set (key := make_key r vi (seq_counter st)) in *.
  split.
  - rewrite Ho. destruct (bool_decide_reflect (key ∈ initial_order st)) as [Hin|Hnin];
      [done|].
    apply NoDup_app. split; [done|]. split; [|apply NoDup_singleton].
    intros x Hx Hx'. apply list_elem_of_singleton in Hx' as ->. done.
  - intros k. destruct (decide (k = key)) as [->|Hne].
    + rewrite Hkey, Ho. split; [eauto|]. intros _.
      destruct (bool_decide_reflect (key ∈ initial_order st)); [done|].
      apply elem_of_app. right. by apply list_elem_of_singleton.
    + rewrite (Hother k Hne), <- Hdom, Ho.
      destruct (bool_decide_reflect (key ∈ initial_order st)); [done|].
      rewrite elem_of_app, list_elem_of_singleton. tauto.
Qed.

Lemma replay_first_seen n ss st st' :
  for_each ss (sight_at n) st = Ok st' ->
  keyed (seq_counter st) ss ->
  initial_order st' = first_seen_from (initial_order st) (List.map (fun s => s.1.1) ss).
Proof.
  revert st. induction ss as [|[[k v] r] ss IH]; intros st H Hk; simpl in H.
  - by injection H as <-.
  - destruct (sight_at n st (k, v, r)) as [st1|] eqn:E; [|done].
    cbn [mbind result_bind] in H. apply sight_at_head in E.
    pose proof (sight_seq _ _ _ _ _ E) as Hseq.
    pose proof (Hk 0 k v r eq_refl) as Hkey. rewrite Nat.add_0_r in Hkey.
    apply sight_state in E as (existing & slot & _ & _ & Ho & _).
    cbv zeta in Ho. rewrite <- Hkey in Ho.
    rewrite (IH st1 H); [|rewrite Hseq; by apply keyed_tail with (k, v, r)].
    unfold first_seen_from. simpl. by rewrite Ho.
Qed.

(** X10: after the merge, [initial_order] lists the keys of the sightings
    without repeats, each at its first sighting; its keys are distinct, and
    they are exactly the keys of [parts]. *)
Theorem merged_keys_in_first_seen_order (sheets : list Sheet) (st : merge_state) :
  build_parts sheets = Ok st ->
  initial_order st = first_seen (List.map (fun s => s.1.1) (sightings sheets))
  ∧ NoDup (initial_order st)
  ∧ ∀ k, k ∈ initial_order st <-> is_Some (parts st !! k).
Proof.
  intros H. split.
  - unfold build_parts in H. rewrite (merge_sheets_replay _ _ _ 0) in H.
    apply replay_first_seen in H; [done|]. apply sightings_from_keyed.
  - revert H. apply (build_parts_invariant order_lists_parts).
    + intros vi st1 r st2. apply sight_order_lists.
    + split; [apply NoDup_nil_2|]. intros k. cbn [initial_order parts].
      rewrite lookup_empty. split; [intros Hk; by apply elem_of_nil in Hk|].
      by intros [? ?].
Qed.

Lemma merged_keys_in_first_seen_order_witness :
  ∃ st, build_parts example_absent = Ok st
        ∧ List.map (fun s => s.1.1) (sightings example_absent)
          = [u8 "PN-1@@n="; u8 "PN-1@@n="; u8 "PN-1@@n="]
        ∧ initial_order st = [u8 "PN-1@@n="].
Proof.
  destruct (build_parts example_absent) as [st|] eqn:Hb; [|by vm_compute in Hb].
  exists st. split; [done|]. split; [vm_compute; reflexivity|].
  rewrite (proj1 (merged_keys_in_first_seen_order example_absent st Hb)).
  vm_compute. reflexivity.
Defined.

Lemma list_insert_elem {A} (l : list A) i x y :
  y ∈ <[i := x]> l -> y = x ∨ y ∈ l.
Proof.
  intros H. apply list_elem_of_lookup_1 in H as [j Hj].
  apply list_lookup_insert_Some in Hj as [(_ & -> & _)|[_ Hj]]; [by left|].
  right. by apply list_elem_of_lookup_2 with j.
Qed.

Lemma sight_no_zero n vi st r st' :
  sight n vi st r = Ok st' -> no_zero_slot st -> no_zero_slot st'.
Proof.
  intros H Hz.
  apply sight_state in H as (existing & slot & He & Ha & _ & Hother & Hkey).
  cbv zeta in *. set (key := make_key r vi (seq_counter st)) in *.
  assert (Hp : ∀ x, Some x ∈ qtys (default {| mp_entry := r; qtys := replicate n None |}
                                          (parts st !! key)) -> num_is_zero x = false).
  { intros x Hx. destruct (parts st !! key) as [p|] eqn:E; simpl in Hx.
    - by apply (Hz key p).
    - by apply elem_of_replicate_inv in Hx. }
  intros k p x Hk Hx. destruct (decide (k = key)) as [->|Hne].
  - rewrite Hkey in Hk. injection Hk as <-.
    destruct (quantity r) as [q|]; [|by apply Hp].
    cbn [qtys] in Hx. apply list_insert_elem in Hx as [Hx|Hx]; [|by apply Hp].
    unfold accumulate in Ha. destruct (num_add (or_zero existing) q) as [t|]; [|done].
    cbn [mbind result_bind] in Ha. injection Ha as Ha.
    destruct (num_is_zero t) eqn:Et; [congruence|]. congruence.
  - rewrite (Hother k Hne) in Hk. by apply (Hz k p).
Qed.

(** X11: after the merge every quantity vector has exactly one slot per
    variant, and no slot holds a number equal to zero: a slot is absent or
    a non-zero number. *)
Theorem merged_vector_shape
    (sheets : list Sheet) (st : merge_state) (k : pystr) (p : MergedPart) :
  build_parts sheets = Ok st ->
  parts st !! k = Some p ->
  length (qtys p) = length sheets
  ∧ ∀ x, Some x ∈ qtys p -> num_is_zero x = false.
Proof.
  intros H Hk. split.
  - apply build_parts_inv in H as (Hwf & _). by apply (Hwf k).
  - assert (Hz : no_zero_slot st).
    { revert H. apply (build_parts_invariant no_zero_slot).
      - intros vi st1 r st2. apply sight_no_zero.
      - intros k' p' x Hk'. cbn [parts] in Hk'. by rewrite lookup_empty in Hk'. }
    intros x Hx. by apply (Hz k p).
Qed.

Lemma merged_vector_shape_witness :
  ∃ st p, build_parts example_cancelling = Ok st
          ∧ parts st !! (u8 "PN-1@@n=") = Some p
          ∧ length (qtys p) = 1.
Proof.
  destruct (build_parts example_cancelling) as [st|] eqn:Hb; [|by vm_compute in Hb].
  destruct (parts st !! u8 "PN-1@@n=") as [p|] eqn:Hp.
  2:{ revert Hp. injection Hb as <-. vm_compute. discriminate. }
  exists st, p. split; [done|]. split; [done|].
  exact (proj1 (merged_vector_shape example_cancelling st _ p Hb Hp)).
Defined.

Lemma replay_seed n ss st st' k p :
  for_each ss (sight_at n) st = Ok st' ->
  keyed (seq_counter st) ss ->
  parts st' !! k = Some p ->
  (∃ p0, parts st !! k = Some p0 ∧ mp_entry p = mp_entry p0)
  ∨ (parts st !! k = None ∧
     ∃ ss1 v r ss2, ss = ss1 ++ (k, v, r) :: ss2 ∧
                    (∀ s, s ∈ ss1 -> s.1.1 ≠ k) ∧ mp_entry p = r).
Proof.
  revert st. induction ss as [|[[k0 v0] r0] ss IH]; intros st H Hk Hp; simpl in H.
  - injection H as <-. left. eauto.
  - destruct (sight_at n st (k0, v0, r0)) as [st1|] eqn:E; [|done].
    cbn [mbind result_bind] in H. apply sight_at_head in E.
    pose proof (sight_seq _ _ _ _ _ E) as Hseq.
    pose proof (Hk 0 k0 v0 r0 eq_refl) as Hkey. rewrite Nat.add_0_r in Hkey.
    apply sight_state in E as (existing & slot & _ & _ & _ & Hother & Hnew).
    cbv zeta in *. rewrite <- Hkey in *.
    assert (Hk1 : keyed (seq_counter st1) ss)
      by (rewrite Hseq; by apply keyed_tail with (k0, v0, r0)).
    destruct (IH st1 H Hk1 Hp) as [(p1 & Hp1 & He)|(Hnone & ss1 & v & r & ss2 & -> & Hfirst & He)].
    + destruct (decide (k = k0)) as [->|Hne].
      * rewrite Hnew in Hp1. injection Hp1 as <-.
        assert (Hentry : mp_entry p
                         = mp_entry (default {| mp_entry := r0; qtys := replicate n None |}
                                             (parts st !! k0)))
          by (rewrite He; by destruct (quantity r0)).
        destruct (parts st !! k0) as [p0|] eqn:E0; simpl in Hentry.
        -- left. eauto.
        -- right. split; [done|]. exists [], v0, r0, ss. split; [done|].
           split; [|done]. intros s Hs. by apply elem_of_nil in Hs.
      * left. exists p1. by rewrite <- (Hother k Hne).
    + assert (Hne : k ≠ k0) by (intros ->; by rewrite Hnew in Hnone).
      right. rewrite <- (Hother k Hne). split; [done|].
      exists ((k0, v0, r0) :: ss1), v, r, ss2. split; [done|]. split; [|done].
      intros s Hs. apply elem_of_cons in Hs as [->|Hs]; [by simpl; congruence|].
      by apply Hfirst.
Qed.

(** X12: a merged part keeps the fields of the entry of the first sighting
    of its key; later sightings of the key change its quantity vector
    only. *)
Theorem merged_part_seeded_by_first_sighting
    (sheets : list Sheet) (st : merge_state) (k : pystr) (p : MergedPart) :
  build_parts sheets = Ok st ->
  parts st !! k = Some p ->
  ∃ ss1 v r ss2,
    sightings sheets = ss1 ++ (k, v, r) :: ss2 ∧
    (∀ s, s ∈ ss1 -> s.1.1 ≠ k) ∧
    mp_entry p = r.
Proof.
  intros H Hp. unfold build_parts in H. rewrite (merge_sheets_replay _ _ _ 0) in H.
  destruct (replay_seed _ _ _ _ k p H (sightings_from_keyed 0 0 sheets) Hp)
    as [(p0 & Hp0 & _)|(_ & Hseed)]; [|exact Hseed].
  cbn [parts] in Hp0. by rewrite lookup_empty in Hp0.
Qed.

Lemma merged_part_seeded_by_first_sighting_witness :
  ∃ st p, build_parts example_absent = Ok st
          ∧ parts st !! (u8 "PN-1@@n=") = Some p
          ∧ mp_entry p = top_entry (u8 "PN-1") (u8 "Bracket") [] None.
Proof.
  destruct (build_parts example_absent) as [st|] eqn:Hb; [|by vm_compute in Hb].
  destruct (parts st !! u8 "PN-1@@n=") as [p|] eqn:Hp.
  2:{ revert Hp. injection Hb as <-. vm_compute. discriminate. }
  exists st, p. split; [done|]. split; [done|].
  destruct (merged_part_seeded_by_first_sighting example_absent st _ p Hb Hp)
    as (ss1 & v & r & ss2 & Hss & Hfirst & ->).
  destruct ss1 as [|s ss1].
  - change (sightings example_absent)
      with [(u8 "PN-1@@n=", 0, top_entry (u8 "PN-1") (u8 "Bracket") [] None);
            (u8 "PN-1@@n=", 0, top_entry (u8 "PN-1") (u8 "Bracket") [] None);
            (u8 "PN-1@@n=", 1, top_entry (u8 "PN-1") (u8 "Bracket") [] (Some (PyInt 2)))]
      in Hss.
    simpl in Hss. congruence.
  - exfalso. apply (Hfirst s); [left|].
    change (sightings example_absent)
      with [(u8 "PN-1@@n=", 0, top_entry (u8 "PN-1") (u8 "Bracket") [] None);
            (u8 "PN-1@@n=", 0, top_entry (u8 "PN-1") (u8 "Bracket") [] None);
            (u8 "PN-1@@n=", 1, top_entry (u8 "PN-1") (u8 "Bracket") [] (Some (PyInt 2)))]
      in Hss.
    simpl in Hss. injection Hss as <- _. reflexivity.
Defined.

(** ** Keys of deeper entries *)

Lemma uint_digits_all d : forallb ascii_is_digit (uint_digits d) = true.
Proof. induction d; simpl; done. Qed.

Lemma uint_digits_inj d1 d2 : uint_digits d1 = uint_digits d2 -> d1 = d2.
Proof.
  revert d2. induction d1; intros d2 H; destruct d2; simpl in H;
    try discriminate; try done; f_equal; apply IHd1; by injection H.
Qed.

Lemma str_of_nat_inj n m : str_of_nat n = str_of_nat m -> n = m.
Proof.
  unfold str_of_nat. intros H. apply uint_digits_inj in H.
  rewrite <- (DecimalNat.Unsigned.of_to n), <- (DecimalNat.Unsigned.of_to m).
  by rewrite H.
Qed.

Lemma digits_then_at_inj (d1 d2 r1 r2 : pystr) :
  forallb ascii_is_digit d1 = true -> forallb ascii_is_digit d2 = true ->
  d1 ++ 64%N :: r1 = d2 ++ 64%N :: r2 -> d1 = d2 ∧ r1 = r2.
Proof.
  intros H1 H2 E.
  destruct (take_while_app ascii_is_digit d1 (64%N :: r1) H1 eq_refl) as [Ht1 Hd1].
  destruct (take_while_app ascii_is_digit d2 (64%N :: r2) H2 eq_refl) as [Ht2 Hd2].
  rewrite E in Ht1, Hd1. split; [congruence|].
  rewrite Hd1 in Hd2. by injection Hd2.
Qed.

(** X13: the key of an entry below level 1 determines, among entries of
    the same part number, the variant and the sequence number; so two
    different sightings of deeper entries with one part number never share
    a key. *)
Theorem deeper_keys_never_collide :
  (∀ r1 r2 v1 v2 s1 s2,
     level r1 ≠ 1 -> level r2 ≠ 1 ->
     part_number r1 = part_number r2 ->
     make_key r1 v1 s1 = make_key r2 v2 s2 ->
     v1 = v2 ∧ s1 = s2)
  ∧ (∀ sheets i j k1 k2 v1 v2 r1 r2,
       sightings sheets !! i = Some (k1, v1, r1) ->
       sightings sheets !! j = Some (k2, v2, r2) ->
       i ≠ j ->
       level r1 ≠ 1 -> level r2 ≠ 1 ->
       part_number r1 = part_number r2 ->
       k1 ≠ k2).
Proof.
  assert (Hinj : ∀ r1 r2 v1 v2 s1 s2,
            level r1 ≠ 1 -> level r2 ≠ 1 ->
            part_number r1 = part_number r2 ->
            make_key r1 v1 s1 = make_key r2 v2 s2 ->
            v1 = v2 ∧ s1 = s2).
  { intros r1 r2 v1 v2 s1 s2 Hl1 Hl2 Hpn H. unfold make_key in H.
    rewrite (proj2 (Nat.eqb_neq _ _) Hl1), (proj2 (Nat.eqb_neq _ _) Hl2), Hpn in H.
    apply app_inv_head in H.
    change (u8 "@@v") with [64%N; 64%N; 118%N] in H.
    change (u8 "@@i") with [64%N; 64%N; 105%N] in H.
    injection H as H.
    apply digits_then_at_inj in H as [Hv H]; [|apply uint_digits_all..].
    injection H as H.
    split; by apply str_of_nat_inj. }
  split; [exact Hinj|].
  intros sheets i j k1 k2 v1 v2 r1 r2 Hi Hj Hij Hl1 Hl2 Hpn Heq.
  pose proof (sightings_from_keyed 0 0 sheets i k1 v1 r1 Hi) as H1.
  pose proof (sightings_from_keyed 0 0 sheets j k2 v2 r2 Hj) as H2.
  simpl in H1, H2. rewrite H1, H2 in Heq.
  destruct (Hinj _ _ _ _ _ _ Hl1 Hl2 Hpn Heq) as [_ ?]. done.
Qed.

(** ** Reconciler: the ordering phase *)

Section Ordering.
Context (parts : gmap pystr MergedPart).

Lemma close_segment_concat segments current :
  concat (close_segment segments current) = concat segments ++ current.
Proof.
  destruct current as [|k current]; simpl; [by rewrite app_nil_r|].
  by rewrite concat_app; simpl; rewrite app_nil_r.
Qed.

Lemma close_segment_headed segments current :
  segments_headed parts segments ->
  (current = [] ∨ ∃ k, head current = Some k ∧ is_Some (parts !! k)) ->
  segments_headed parts (close_segment segments current).
Proof.
  intros Hs Hc. destruct current as [|k current]; simpl; [done|].
  apply Forall_app. split; [done|]. apply Forall_singleton.
  by destruct Hc as [|Hc].
Qed.

Lemma segment_keys_spec keys segments current :
  (∀ k, k ∈ keys -> is_Some (parts !! k)) ->
  segments_headed parts segments ->
  (current = [] ∨ ∃ k, head current = Some k ∧ is_Some (parts !! k)) ->
  ∃ out, segment_keys parts keys segments current = Some out
         ∧ concat out = concat segments ++ current ++ keys
         ∧ segments_headed parts out.
Proof.
  revert segments current.
  induction keys as [|key keys IH]; intros segments current Hkeys Hs Hc; simpl.
  - eexists. split; [done|]. rewrite app_nil_r. split; [apply close_segment_concat|].
    by apply close_segment_headed.
  - destruct (Hkeys key) as [p Hp]; [left|]. rewrite Hp. cbn [mbind option_bind].
    assert (Hkeys' : ∀ k, k ∈ keys -> is_Some (parts !! k))
      by (intros k Hk; apply Hkeys; by right).
    destruct (level (mp_entry p) =? 1)%nat.
    + destruct (IH (close_segment segments current) [key] Hkeys') as (out & -> & Hcat & Hh).
      * by apply close_segment_headed.
      * right. exists key. eauto.
      * exists out. split; [done|]. split; [|done].
        rewrite Hcat, close_segment_concat. by rewrite <- app_assoc.
    + destruct (IH segments (current ++ [key]) Hkeys' Hs) as (out & -> & Hcat & Hh).
      * right. destruct current as [|k0 current]; simpl; [exists key; eauto|].
        destruct Hc as [|Hc]; [done|]. exact Hc.
      * exists out. split; [done|]. split; [|done].
        rewrite Hcat. by rewrite <- !app_assoc.
Qed.

Lemma flatten_groups_other seg_by_name names name segs :
  name ∉ names ->
  flatten_groups (<[name := segs]> seg_by_name) names = flatten_groups seg_by_name names.
Proof.
  induction names as [|n names IH]; intros Hn; simpl; [done|].
  apply not_elem_of_cons in Hn as [Hne Hn].
  rewrite lookup_insert_ne by done. by rewrite IH.
Qed.

Lemma flatten_groups_total seg_by_name names :
  (∀ name, name ∈ names -> is_Some (seg_by_name !! name)) ->
  ∃ fl, flatten_groups seg_by_name names = Some fl.
Proof.
  induction names as [|n names IH]; intros H; simpl; [eauto|].
  destruct (H n) as [segs ->]; [left|].
  destruct IH as [fl ->]; [intros name Hn; apply H; by right|].
  simpl. eauto.
Qed.

Lemma flatten_groups_append seg_by_name names name old seg fl :
  NoDup names -> name ∈ names ->
  seg_by_name !! name = Some old ->
  flatten_groups seg_by_name names = Some fl ->
  ∃ fl', flatten_groups (<[name := old ++ [seg]]> seg_by_name) names = Some fl'
         ∧ fl' ≡ₚ fl ++ seg.
Proof.
  revert fl. induction names as [|n names IH]; intros fl Hnd Hin Hold Hfl.
  - by apply elem_of_nil in Hin.
  - apply NoDup_cons in Hnd as [Hn Hnd]. simpl in *.
    destruct (seg_by_name !! n) as [segs|] eqn:En; [|done].
    destruct (flatten_groups seg_by_name names) as [rest|] eqn:Er; [|done].
    simpl in Hfl. injection Hfl as <-.
    destruct (decide (n = name)) as [->|Hne].
    + rewrite lookup_insert_eq, flatten_groups_other, Er by done. simpl.
      eexists. split; [done|]. rewrite Hold in En. injection En as <-.
      rewrite concat_app. simpl. rewrite app_nil_r, <- !app_assoc.
      apply Permutation_app_head, Permutation_app_comm.
    + rewrite lookup_insert_ne by done. rewrite En.
      apply elem_of_cons in Hin as [->|Hin]; [done|].
      destruct (IH rest Hnd Hin Hold eq_refl) as (fl' & -> & Hperm).
      simpl. eexists. split; [done|]. rewrite Hperm. by rewrite app_assoc.
Qed.

Lemma flatten_groups_new seg_by_name names name seg fl :
  name ∉ names ->
  flatten_groups seg_by_name names = Some fl ->
  flatten_groups (<[name := [seg]]> seg_by_name) (names ++ [name]) = Some (fl ++ seg).
Proof.
  revert fl. induction names as [|n names IH]; intros fl Hn Hfl; simpl in *.
  - injection Hfl as <-. rewrite lookup_insert_eq. simpl. by rewrite !app_nil_r.
  - apply not_elem_of_cons in Hn as [Hne Hn].
    rewrite lookup_insert_ne by done.
    destruct (seg_by_name !! n) as [segs|]; [|done].
    destruct (flatten_groups seg_by_name names) as [rest|] eqn:Er; [|done].
    simpl in Hfl. injection Hfl as <-. simpl.
    rewrite (IH rest Hn eq_refl). simpl. by rewrite app_assoc.
Qed.

Lemma group_segments_spec segments seg_by_name name_order fl :
  segments_headed parts segments ->
  names_listed seg_by_name name_order ->
  flatten_groups seg_by_name name_order = Some fl ->
  ∃ by_name names fl',
    group_segments parts segments seg_by_name name_order = Some (by_name, names)
    ∧ names_listed by_name names
    ∧ flatten_groups by_name names = Some fl'
    ∧ fl' ≡ₚ fl ++ concat segments.
Proof.
  revert seg_by_name name_order fl.
  induction segments as [|seg segments IH]; intros seg_by_name name_order fl Hh Hl Hfl.
  - simpl. exists seg_by_name, name_order, fl. by rewrite app_nil_r.
  - apply Forall_cons in Hh as [(k & Hk & [p Hp]) Hh]. simpl.
    rewrite Hk. cbn [mbind option_bind]. rewrite Hp. cbn [mbind option_bind].
    set (name := part_name (mp_entry p)). destruct Hl as [Hnd Hdom].
    destruct (seg_by_name !! name) as [old|] eqn:Eo.
    + rewrite Eo. cbn [mbind option_bind].
      assert (Hin : name ∈ name_order) by (apply Hdom; eauto).
      destruct (flatten_groups_append _ _ _ _ seg _ Hnd Hin Eo Hfl) as (fl1 & Hfl1 & Hp1).
      destruct (IH (<[name := old ++ [seg]]> seg_by_name) name_order fl1 Hh)
        as (by_name & names & fl' & Hg & Hl' & Hf' & Hperm); [|done|].
      { split; [done|]. intros n. destruct (decide (n = name)) as [->|Hne].
        - rewrite lookup_insert_eq. split; eauto.
        - rewrite lookup_insert_ne by done. apply Hdom. }
      exists by_name, names, fl'. split; [done|]. split; [done|]. split; [done|].
      rewrite Hperm, Hp1. by rewrite <- app_assoc.
    + rewrite lookup_insert_eq. cbn [mbind option_bind]. rewrite insert_insert_eq.
      assert (Hnin : name ∉ name_order).
      { intros Hin. apply Hdom in Hin as [? ?]. congruence. }
      pose proof (flatten_groups_new _ _ _ seg _ Hnin Hfl) as Hfl1. simpl in Hfl1.
      destruct (IH (<[name := [seg]]> seg_by_name) (name_order ++ [name]) (fl ++ seg) Hh)
        as (by_name & names & fl' & Hg & Hl' & Hf' & Hperm); [|done|].
      { split.
        - apply NoDup_app. split; [done|]. split; [|apply NoDup_singleton].
          intros x Hx Hx'. apply list_elem_of_singleton in Hx' as ->. done.
        - intros n. rewrite elem_of_app, list_elem_of_singleton.
          destruct (decide (n = name)) as [->|Hne].
          + rewrite lookup_insert_eq. split; eauto.
          + rewrite lookup_insert_ne by done. rewrite <- Hdom. tauto. }
      exists by_name, names, fl'. split; [done|]. split; [done|]. split; [done|].
      rewrite Hperm. by rewrite <- app_assoc.
Qed.

(** Whenever [parts] knows every key of [initial_order], the ordering
    phase raises nothing and only rearranges the keys. *)
Lemma order_keys_permutation order :
  (∀ k, k ∈ order -> is_Some (parts !! k)) ->
  ∃ ordered, order_keys parts order = Some ordered ∧ ordered ≡ₚ order.
Proof.
  intros Hkeys. unfold order_keys.
  destruct (segment_keys_spec order [] [] Hkeys) as (segments & -> & Hcat & Hh);
    [by apply Forall_nil | by left |].
  cbn [mbind option_bind]. simpl in Hcat.
  destruct (group_segments_spec segments ∅ [] [] Hh) as (by_name & names & fl & -> & _ & Hf & Hp).
  - split; [apply NoDup_nil_2|]. intros n. rewrite lookup_empty.
    split; [intros Hn; by apply elem_of_nil in Hn | by intros [? ?]].
  - done.
  - cbn [mbind option_bind]. exists fl. split; [done|]. by rewrite Hp, Hcat.
Qed.

End Ordering.

(** X14: after the merge the ordering phase raises neither [KeyError] nor
    [IndexError], and [ordered_keys] is a rearrangement of
    [initial_order]: every key of [parts] is written exactly once. *)
Theorem ordered_keys_rearrange_parts (sheets : list Sheet) (st : merge_state) :
  build_parts sheets = Ok st ->
  ∃ ordered,
    order_keys (parts st) (initial_order st) = Some ordered
    ∧ ordered ≡ₚ initial_order st
    ∧ NoDup ordered
    ∧ ∀ k, k ∈ ordered <-> is_Some (parts st !! k).
Proof.
  intros H.
  assert (Ho : order_lists_parts st).
  { revert H. apply (build_parts_invariant order_lists_parts).
    - intros vi st1 r st2. apply sight_order_lists.
    - split; [apply NoDup_nil_2|]. intros k. cbn [initial_order parts].
      rewrite lookup_empty. split; [intros Hk; by apply elem_of_nil in Hk|].
      by intros [? ?]. }
  destruct Ho as [Hnd Hdom].
  destruct (order_keys_permutation (parts st) (initial_order st)) as (ordered & Hok & Hp).
  { intros k Hk. by apply Hdom. }
  exists ordered. split; [done|]. split; [done|]. split.
  - by rewrite Hp.
  - intros k. rewrite Hp. apply Hdom.
Qed.

Lemma ordered_keys_rearrange_parts_witness :
  ∃ st, build_parts example_hierarchy = Ok st
        ∧ initial_order st
          = [u8 "PN-1@@n="; u8 "PN-9@@v0@@i1"; u8 "PN-2@@n="; u8 "PN-1@@n=rh";
             u8 "PN-9@@v1@@i4"]
        ∧ order_keys (parts st) (initial_order st)
          = Some [u8 "PN-1@@n="; u8 "PN-9@@v0@@i1"; u8 "PN-1@@n=rh"; u8 "PN-9@@v1@@i4";
                  u8 "PN-2@@n="]
        ∧ ∃ ordered, order_keys (parts st) (initial_order st) = Some ordered
                     ∧ ordered ≡ₚ initial_order st.
Proof.
  pose (st := match build_parts example_hierarchy with
              | Ok s => s
              | Raise _ => {| parts := ∅; initial_order := []; seq_counter := 0 |}
              end).
  assert (Hb : build_parts example_hierarchy = Ok st) by (vm_compute; reflexivity).
  exists st. split; [exact Hb|].
  destruct (ordered_keys_rearrange_parts example_hierarchy st Hb)
    as (ordered & Ho & Hp & _).
  split; [vm_compute; reflexivity|].
  split; [vm_compute; reflexivity|].
  exists ordered. split; [exact Ho | exact Hp].
Defined.

Lemma deeper_keys_never_collide_witness :
  let bolt := child_entry 2 (u8 "PN-9") (u8 "Bolt") (Some (PyInt 4)) in
  level bolt ≠ 1
  ∧ make_key bolt 0 1 ≠ make_key bolt 1 4
  ∧ (make_key bolt 0 1 = make_key bolt 1 4 -> 0 = 1 ∧ 1 = 4).
Proof.
  intros bolt. split; [by vm_compute|]. split; [by vm_compute|].
  apply (proj1 deeper_keys_never_collide bolt bolt 0 1 1 4); by vm_compute.
Defined.

(** ** The earlier generation's reconciler *)
















(** X16: the quantity of [multi.py] is the quantity of [test.py] with the
    integer 0 in place of an absent one: it is the integer when [int]
    accepts the cell, else the float when [float] accepts it, else 0, and a
    blank cell counts as 0. *)
Theorem multi_quantity_zero_for_absent (ucd : UCD) (qt : pystr) :
  Multi.parse_quantity ucd qt = default (PyInt 0) (parse_quantity ucd qt)
  ∧ Multi.parse_quantity ucd [] = PyInt 0.
Proof.
  assert (Hi : py_int ucd [] = None) by reflexivity.
  assert (Hf : py_float ucd [] = None) by reflexivity.
  split.
  - unfold Multi.parse_quantity, parse_quantity. destruct qt as [|c qt].
    + by rewrite Hi, Hf.
    + destruct (py_int ucd (c :: qt)); [done|].
      by destruct (py_float ucd (c :: qt)).
  - unfold Multi.parse_quantity. by rewrite Hi, Hf.
Qed.

Lemma max_level_fold (parts : gmap pystr MergedPart) (keys : list pystr) :
  (∀ k, k ∈ keys -> is_Some (parts !! k)) ->
  ∃ m, foldr (fun k acc => p ← parts !! k; m ← acc;
                           Some (Nat.max (level (mp_entry p)) m)) (Some 0) keys = Some m
       ∧ (∀ k p, k ∈ keys -> parts !! k = Some p -> level (mp_entry p) <= m)
       ∧ (m = 0 ∨ ∃ k p, k ∈ keys ∧ parts !! k = Some p ∧ level (mp_entry p) = m).
Proof.
  induction keys as [|k keys IH]; intros Hk; simpl.
  - exists 0. split; [done|]. split; [|by left].
    intros k p Hin. by apply elem_of_nil in Hin.
  - destruct (Hk k) as [p Hp]; [left|].
    destruct IH as (m & -> & Hle & Hat); [intros k' Hk'; apply Hk; by right|].
    rewrite Hp. cbn [mbind option_bind]. eexists. split; [done|]. split.
    + intros k' p' Hin Hp'. apply elem_of_cons in Hin as [->|Hin].
      * rewrite Hp in Hp'. injection Hp' as <-. lia.
      * specialize (Hle k' p' Hin Hp'). lia.
    + destruct (Nat.max_spec (level (mp_entry p)) m) as [[Hlt ->]|[Hge ->]].
      * destruct Hat as [->|(k' & p' & Hin & Hp' & Hl)]; [lia|].
        right. exists k', p'. split; [by right|]. done.
      * right. exists k, p. split; [left|]. done.
Qed.

(** X17: after the merge and the ordering, [max_lvl] is computed without
    [KeyError]; it is 1 when there is no part, and otherwise it is the level
    of one of the parts and no part has a greater level. *)
Theorem max_level_is_greatest_level
    (sheets : list Sheet) (st : merge_state) (ordered : list pystr) :
  build_parts sheets = Ok st ->
  order_keys (parts st) (initial_order st) = Some ordered ->
  ∃ m,
    max_level (parts st) ordered = Some m
    ∧ (ordered = [] -> m = 1)
    ∧ (ordered ≠ [] ->
       (∀ k p, parts st !! k = Some p -> level (mp_entry p) <= m)
       ∧ ∃ k p, parts st !! k = Some p ∧ level (mp_entry p) = m).
Proof.
  intros H Hord.
  assert (Ho : order_lists_parts st).
  { revert H. apply (build_parts_invariant order_lists_parts).
    - intros vi st1 r st2. apply sight_order_lists.
    - split; [apply NoDup_nil_2|]. intros k. cbn [initial_order parts].
      rewrite lookup_empty. split; [intros Hk; by apply elem_of_nil in Hk|].
      by intros [? ?]. }
  destruct Ho as [Hnd Hdom].
  destruct (order_keys_permutation (parts st) (initial_order st)) as (ordered' & Hok & Hp).
  { intros k Hk. by apply Hdom. }
  rewrite Hord in Hok. injection Hok as <-.
  assert (Hin : ∀ k, k ∈ ordered <-> is_Some (parts st !! k)).
  { intros k. rewrite Hp. apply Hdom. }
  destruct (max_level_fold (parts st) ordered) as (m & Hm & Hle & Hat).
  { intros k Hk. by apply Hin. }
  destruct ordered as [|k0 ordered].
  - exists 1. split; [done|]. split; [done|]. by intros [].
  - exists m. split; [exact Hm|]. split; [done|]. intros _. split.
    + intros k p Hk. apply (Hle k p); [|done]. apply Hin. eauto.
    + destruct Hat as [->|(k & p & _ & Hk & Hl)]; [|eauto].
      destruct (proj1 (Hin k0)) as [p0 Hp0]; [left|].
      exists k0, p0. split; [done|].
      assert (Hl : level (mp_entry p0) <= 0) by (apply (Hle k0 p0); [left | done]).
      lia.
Qed.

Lemma max_level_is_greatest_level_witness :
  ∃ st ordered,
    build_parts example_hierarchy = Ok st
    ∧ order_keys (parts st) (initial_order st) = Some ordered
    ∧ max_level (parts st) ordered = Some 2.
Proof.
  pose (st := match build_parts example_hierarchy with
              | Ok s => s
              | Raise _ => {| parts := ∅; initial_order := []; seq_counter := 0 |}
              end).
  pose (ordered := default [] (order_keys (parts st) (initial_order st))).
  assert (Hb : build_parts example_hierarchy = Ok st) by (vm_compute; reflexivity).
  assert (Ho : order_keys (parts st) (initial_order st) = Some ordered)
    by (vm_compute; reflexivity).
  exists st, ordered. split; [exact Hb|]. split; [exact Ho|].
  destruct (max_level_is_greatest_level example_hierarchy st ordered Hb Ho)
    as (m & Hm & _).
  vm_compute. reflexivity.
Defined.
